(** * Tiered file search of radar_chatbot.py (and the plain variant of
    safe_chatbot.py), shallow embedding.

    A Python [str] is a list of Unicode code points ([N]).  The character
    classes used by the code ([str.lower], regex [\w], [str.isspace]) follow
    Python exactly on the ASCII range; code points above 127 are treated as
    non-word characters that [lower] leaves unchanged (whitespace follows
    Python's full list).  Python's [\w] and [str.lower] are Unicode-wide
    ([lower] can even lengthen a string or depend on context), so a property
    whose truth depends on how text is tokenized or lower-cased is stated
    for ASCII text ([ascii_str]), where this model and Python agree. *)

From Stdlib Require Import Ascii String.
From Stdlib Require Import List Bool Arith NArith ZArith Lia.
From Stdlib Require Import Sorting.Permutation Sorting.Sorted.
Import ListNotations.
Local Set Warnings "-abstract-large-number".
Open Scope list_scope.

(** ** Text *)

Definition char := N.
Definition str := list char.

(** String literal of the source, as code points. *)
Definition lit (s : string) : str := map N_of_ascii (list_ascii_of_string s).

Definition in_range (lo hi c : N) : bool := ((lo <=? c) && (c <=? hi))%N.

(** [str.isspace]: the code points [str.split()] and [str.strip()] remove. *)
Definition is_space (c : char) : bool :=
  in_range 9 13 c || in_range 28 32 c || N.eqb c 133 || N.eqb c 160
  || N.eqb c 5760 || in_range 8192 8202 c || N.eqb c 8232 || N.eqb c 8233
  || N.eqb c 8239 || N.eqb c 8287 || N.eqb c 12288.

(** regex [\w] on ASCII: [A-Za-z0-9_] (Python's class is Unicode-wide;
    the two agree on code points below 128). *)
Definition is_word (c : char) : bool :=
  in_range 48 57 c || in_range 65 90 c || in_range 97 122 c || N.eqb c 95.

(** [str.lower] of one ASCII character: [A-Z] to [a-z]. *)
Definition py_lower_char (c : char) : char :=
  if in_range 65 90 c then (c + 32)%N else c.

(** [s.lower()] on ASCII text, one character at a time (Python's agrees
    with it on strings of code points below 128). *)
Definition py_lower (s : str) : str := map py_lower_char s.

(** Text made of ASCII code points only, where [is_word] and [py_lower]
    are Python's [\w] and [str.lower]. *)
Definition ascii_str (s : str) : bool := forallb (fun c => (c <? 128)%N) s.

Fixpoint is_prefix (p s : str) : bool :=
  match p, s with
  | [], _ => true
  | x :: p', y :: s' => N.eqb x y && is_prefix p' s'
  | _ :: _, [] => false
  end.

(** [s.find(sub)] starting at index [i]; [None] stands for [-1]. *)
Fixpoint py_find_from (i : nat) (sub s : str) : option nat :=
  if is_prefix sub s then Some i
  else match s with
       | [] => None
       | _ :: s' => py_find_from (S i) sub s'
       end.

Definition py_find (sub s : str) : option nat := py_find_from 0 sub s.

(** [sub in s] *)
Definition py_in (sub s : str) : bool :=
  match py_find sub s with Some _ => true | None => false end.

(** [s.count(sub)]: non-overlapping occurrences, scanning left to right. *)
Fixpoint count_nonoverlap (fuel : nat) (sub s : str) : nat :=
  match fuel with
  | O => O
  | S f =>
      match s with
      | [] => O
      | _ :: s' =>
          if is_prefix sub s then S (count_nonoverlap f sub (skipn (length sub) s))
          else count_nonoverlap f sub s'
      end
  end.

Definition py_count (sub s : str) : nat :=
  match sub with
  | [] => S (length s)
  | _ => count_nonoverlap (length s) sub s
  end.

Fixpoint lstrip (s : str) : str :=
  match s with
  | c :: s' => if is_space c then lstrip s' else s
  | [] => []
  end.

(** [s.strip()] *)
Definition py_strip (s : str) : str := rev' (lstrip (rev' (lstrip s))).

(** Maximal runs of characters satisfying [p], in order. *)
Fixpoint runs_aux (p : char -> bool) (cur : str) (s : str) : list str :=
  match s with
  | [] => match cur with [] => [] | _ => [rev' cur] end
  | c :: s' =>
      if p c then runs_aux p (c :: cur) s'
      else match cur with
           | [] => runs_aux p [] s'
           | _ => rev' cur :: runs_aux p [] s'
           end
  end.

Definition runs (p : char -> bool) (s : str) : list str := runs_aux p [] s.

(** [s.split()] *)
Definition py_split (s : str) : list str := runs (fun c => negb (is_space c)) s.

(** [re.findall(r'\b\w+\b', s)] *)
Definition findall_words (s : str) : list str := runs is_word s.

(** [re.sub(r'[^\w]', '', s)] *)
Definition strip_non_word (s : str) : str := filter is_word s.

(** [re.split(r'[...]+', s)] for a character class [sep]. *)
Fixpoint re_split_aux (sep : char -> bool) (cur : str) (prev_sep : bool) (s : str)
  : list str :=
  match s with
  | [] => [rev' cur]
  | c :: s' =>
      if sep c then
        if prev_sep then re_split_aux sep cur true s'
        else rev' cur :: re_split_aux sep [] true s'
      else re_split_aux sep (c :: cur) false s'
  end.

Definition re_split (sep : char -> bool) (s : str) : list str :=
  re_split_aux sep [] false s.

Fixpoint py_join (sep : str) (l : list str) : str :=
  match l with
  | [] => []
  | [x] => x
  | x :: l' => x ++ sep ++ py_join sep l'
  end.

(** [s[start:end]] for [0 <= start <= end]. *)
Definition slice (start stop : nat) (s : str) : str :=
  firstn (stop - start) (skipn start s).

(** [s.endswith(suf)] *)
Definition py_endswith (s suf : str) : bool := is_prefix (rev' suf) (rev' s).

Definition str_eqb (a b : str) : bool := is_prefix a b && Nat.eqb (length a) (length b).

(** [x in l] for a list of strings *)
Definition str_mem (x : str) (l : list str) : bool := existsb (str_eqb x) l.

(** Decimal rendering of a non-negative Python int ([f"{n}"]). *)
Fixpoint dec_digits (fuel : nat) (n : N) (acc : str) : str :=
  match fuel with
  | O => acc
  | S f =>
      let acc' := (48 + n mod 10)%N :: acc in
      if (n <? 10)%N then acc' else dec_digits f (n / 10)%N acc'
  end.

Definition dec_N (n : N) : str := dec_digits (S (N.size_nat n)) n [].
Definition dec (n : nat) : str := dec_N (N.of_nat n).

(** ** Configuration: the attributes set in [RadarFileChatbot.__init__] *)

Record config := {
  MAX_FILE_SIZE : N;
  MAX_SNIPPET_LENGTH : nat;
  MAX_RESULTS_DISPLAY : nat;
  MAX_TOTAL_RESPONSE_LENGTH : nat;
  MAX_FILES_TO_SEARCH : nat;
  (** extensions whose checkbox is ticked ([selected_extensions]) *)
  selected_extensions : list str
}.

Definition default_config : config := {|
  MAX_FILE_SIZE := 10 * 1024 * 1024;
  MAX_SNIPPET_LENGTH := 200;
  MAX_RESULTS_DISPLAY := 8;
  MAX_TOTAL_RESPONSE_LENGTH := 50000;
  MAX_FILES_TO_SEARCH := 10000;
  selected_extensions := [lit ".txt"; lit ".log"; lit ".dat"; lit ".csv"]
|}.

(** ** Snippets *)

Definition ellipsis : str := lit "...".

(** [get_snippet_for_phrase] *)
Definition get_snippet_for_phrase (cfg : config) (content phrase : str) : str :=
  let phrase_lower := py_lower phrase in
  let content_lower := py_lower content in
  match py_find phrase_lower content_lower with
  | None => firstn (MAX_SNIPPET_LENGTH cfg) content ++ ellipsis
  | Some pos =>
      let start := pos - 50 in
      let stop := Nat.min (length content) (pos + length phrase + 50) in
      let snippet := py_join (lit " ") (py_split (slice start stop content)) in
      let snippet := if 0 <? start then ellipsis ++ snippet else snippet in
      let snippet := if stop <? length content then snippet ++ ellipsis else snippet in
      firstn (MAX_SNIPPET_LENGTH cfg) snippet
  end.

Definition is_sentence_sep (c : char) : bool :=
  N.eqb c 46 || N.eqb c 33 || N.eqb c 63 || N.eqb c 10.

Definition keyword_hits (keywords : list str) (sentence_lower : str) : nat :=
  length (filter (fun kw => py_in kw sentence_lower) keywords).

(** The sentence loop: [best_sentence], [best_score] *)
Fixpoint best_sentence_loop (keywords : list str) (sentences : list str)
    (best : str) (best_score : nat) : str :=
  match sentences with
  | [] => best
  | sentence :: rest =>
      let sentence := py_strip sentence in
      match sentence with
      | [] => best_sentence_loop keywords rest best best_score
      | _ =>
          let score := keyword_hits keywords (py_lower sentence) in
          if best_score <? score then best_sentence_loop keywords rest sentence score
          else best_sentence_loop keywords rest best best_score
      end
  end.

(** The fallback loop over keywords *)
Fixpoint keyword_context (cfg : config) (content : str) (keywords : list str)
  : option str :=
  match keywords with
  | [] => None
  | keyword :: rest =>
      match py_find keyword (py_lower content) with
      | None => keyword_context cfg content rest
      | Some pos =>
          let start := pos - 50 in
          let stop := Nat.min (length content) (pos + length keyword + 50) in
          let context := py_join (lit " ") (py_split (slice start stop content)) in
          let context := if 0 <? start then ellipsis ++ context else context in
          let context := if stop <? length content then context ++ ellipsis else context in
          Some (firstn (MAX_SNIPPET_LENGTH cfg) context)
      end
  end.

(** [s[:stop]] for an integer [stop]: a negative [stop] counts from the
    end ([s[:len(s)+stop]], empty when that is negative). *)
Definition py_slice_to (stop : Z) (s : str) : str :=
  if (0 <=? stop)%Z then firstn (Z.to_nat stop) s
  else firstn (length s - Z.to_nat (- stop)) s.

(** [get_snippet_for_keywords] *)
Definition get_snippet_for_keywords (cfg : config) (content : str) (keywords : list str)
  : str :=
  let sentences := re_split is_sentence_sep content in
  let best := best_sentence_loop keywords sentences [] 0 in
  match best with
  | _ :: _ =>
      if MAX_SNIPPET_LENGTH cfg <? length best
      then py_slice_to (Z.of_nat (MAX_SNIPPET_LENGTH cfg) - 3) best ++ ellipsis
      else best
  | [] =>
      match keyword_context cfg content keywords with
      | Some c => c
      | None => firstn (MAX_SNIPPET_LENGTH cfg) content ++ ellipsis
      end
  end.

(** ** Phrase proximity ([check_phrase_proximity]) *)

(** [word_positions]: a Python dict from keyword to the list of word indices,
    kept as an association list in insertion order. *)
Definition positions := list (str * list nat).

Fixpoint lookup_pos (wp : positions) (k : str) : option (list nat) :=
  match wp with
  | [] => None
  | (k', ps) :: wp' => if str_eqb k k' then Some ps else lookup_pos wp' k
  end.

(** [if k not in wp: wp[k] = []] followed by [wp[k].append(i)] *)
Fixpoint add_pos (wp : positions) (k : str) (i : nat) : positions :=
  match wp with
  | [] => [(k, [i])]
  | (k', ps) :: wp' =>
      if str_eqb k k' then (k', ps ++ [i]) :: wp' else (k', ps) :: add_pos wp' k i
  end.

(** The [for i, word in enumerate(words)] loop. *)
Fixpoint collect_positions (keywords : list str) (i : nat) (words : list str)
    (wp : positions) : positions :=
  match words with
  | [] => wp
  | word :: rest =>
      let word_clean := strip_non_word (py_lower word) in
      let wp := if str_mem word_clean keywords then add_pos wp word_clean i else wp in
      collect_positions keywords (S i) rest wp
  end.

Definition near (pos1 pos2 : nat) : bool :=
  (Z.abs (Z.of_nat pos2 - Z.of_nat pos1) <=? 50)%Z.

(** [for keyword in keywords[1:]: ...]; [None] is a [KeyError]. *)
Fixpoint all_near (wp : positions) (pos1 : nat) (kws : list str) : option bool :=
  match kws with
  | [] => Some true
  | keyword :: rest =>
      match lookup_pos wp keyword with
      | None => None
      | Some ps => if existsb (near pos1) ps then all_near wp pos1 rest else Some false
      end
  end.

(** [for pos1 in first_keyword_positions: ...] *)
Fixpoint any_anchor (wp : positions) (others : list str) (firsts : list nat)
  : option bool :=
  match firsts with
  | [] => Some false
  | pos1 :: rest =>
      match all_near wp pos1 others with
      | None => None
      | Some true => Some true
      | Some false => any_anchor wp others rest
      end
  end.

(** [check_phrase_proximity(content, keywords)]; [None] is a raised
    [KeyError]. *)
Definition check_phrase_proximity (content : str) (keywords : list str) : option bool :=
  if length keywords <? 2 then Some false
  else
    let words := py_split content in
    let word_positions := collect_positions keywords 0 words [] in
    if negb (Nat.eqb (length word_positions) (length keywords)) then Some false
    else match keywords with
         | [] => Some false
         | k0 :: others =>
             match lookup_pos word_positions k0 with
             | None => None
             | Some firsts => any_anchor word_positions others firsts
             end
         end.

(** ** Tokenizer and tier classification ([search_files]) *)

(** [keywords = [word.lower() for word in re.findall(r'\b\w+\b', q) if len(word) > 1]]
    (Python's tokens on ASCII queries) *)
Definition keywords_of (original_query : str) : list str :=
  map py_lower (filter (fun w => 1 <? length w) (findall_words original_query)).

Inductive tier := Exact | Phrase | Keyword.

(** the ['match_type'] strings *)
Definition match_type_label (t : tier) : str :=
  match t with
  | Exact => lit "EXACT MATCH"
  | Phrase => lit "PHRASE MATCH"
  | Keyword => lit "KEYWORD MATCH"
  end.

Definition sum_counts (keywords : list str) (content_lower : str) : nat :=
  fold_right (fun kw acc => py_count kw content_lower + acc) 0 keywords.

Definition all_keywords_in (keywords : list str) (content_lower : str) : bool :=
  forallb (fun kw => py_in kw content_lower) keywords.

(** The [if / elif / elif] chain on one file's content: [Some None] is no
    match, [Some (Some (tier, relevance, snippet))] a match, [None] an
    exception (caught by the per-file handler). *)
Definition classify (cfg : config) (original_query : str) (keywords : list str)
    (content : str) : option (option (tier * nat * str)) :=
  let query_lower := py_lower original_query in
  let content_lower := py_lower content in
  let keyword_tier :=
    if all_keywords_in keywords content_lower
    then Some (Some (Keyword, sum_counts keywords content_lower * 5,
                     get_snippet_for_keywords cfg content keywords))
    else Some None in
  if py_in query_lower content_lower then
    Some (Some (Exact, 1000 + py_count query_lower content_lower * 100,
                get_snippet_for_phrase cfg content original_query))
  else if 1 <? length keywords then
    match check_phrase_proximity content_lower keywords with
    | None => None
    | Some true =>
        Some (Some (Phrase, 500 + sum_counts keywords content_lower * 10,
                    get_snippet_for_keywords cfg content keywords))
    | Some false => keyword_tier
    end
  else keyword_tier.

(** ** File system and scan state *)

(** A file as [os.walk] lists it: its name, the result of
    [os.path.getsize] ([None]: raises) and the text [f.read()] decodes with
    [errors='ignore'] ([None]: [open] or [read] raises). *)
Record file_entry := {
  fname : str;
  fsize : option N;
  fcontent : option str
}.

(** The sequence [os.walk(base_dir)] yields: [(root, files)] in walk order. *)
Definition walk := list (str * list file_entry).

Definition slash : str := lit "/".

(** [os.path.join(root, file)] (POSIX) *)
Definition path_join (root file : str) : str :=
  match root with
  | [] => file
  | _ => if py_endswith root slash then root ++ file else root ++ slash ++ file
  end.

(** [os.path.basename(path)]: what follows the last separator. *)
Definition basename (path : str) : str :=
  let rp := rev' path in
  rev' (match py_find slash rp with Some i => firstn i rp | None => rp end).

Record match_record := {
  r_path : str;
  r_filename : str;
  r_snippet : str;
  r_size : N;
  r_relevance : nat;
  r_match_type : tier
}.

(** Counters and buckets of one [search_files] run.  [visited] and
    [scanned] are trace fields: the paths whose loop body ran past the cap
    check, and the paths counted in [files_searched]. *)
Record scan_state := {
  exact_matches : list match_record;
  phrase_matches : list match_record;
  keyword_matches : list match_record;
  files_searched : nat;
  files_skipped : nat;
  files_error : nat;
  visited : list str;
  scanned : list str
}.

Definition init_state : scan_state :=
  {| exact_matches := []; phrase_matches := []; keyword_matches := [];
     files_searched := 0; files_skipped := 0; files_error := 0;
     visited := []; scanned := [] |}.

Definition set_visited (p : str) (st : scan_state) : scan_state :=
  {| exact_matches := exact_matches st; phrase_matches := phrase_matches st;
     keyword_matches := keyword_matches st; files_searched := files_searched st;
     files_skipped := files_skipped st; files_error := files_error st;
     visited := visited st ++ [p]; scanned := scanned st |}.

Definition bump_skipped (st : scan_state) : scan_state :=
  {| exact_matches := exact_matches st; phrase_matches := phrase_matches st;
     keyword_matches := keyword_matches st; files_searched := files_searched st;
     files_skipped := S (files_skipped st); files_error := files_error st;
     visited := visited st; scanned := scanned st |}.

Definition bump_error (st : scan_state) : scan_state :=
  {| exact_matches := exact_matches st; phrase_matches := phrase_matches st;
     keyword_matches := keyword_matches st; files_searched := files_searched st;
     files_skipped := files_skipped st; files_error := S (files_error st);
     visited := visited st; scanned := scanned st |}.

Definition bump_searched (p : str) (st : scan_state) : scan_state :=
  {| exact_matches := exact_matches st; phrase_matches := phrase_matches st;
     keyword_matches := keyword_matches st; files_searched := S (files_searched st);
     files_skipped := files_skipped st; files_error := files_error st;
     visited := visited st; scanned := scanned st ++ [p] |}.

Definition add_record (r : match_record) (st : scan_state) : scan_state :=
  {| exact_matches := exact_matches st ++ (match r_match_type r with Exact => [r] | _ => [] end);
     phrase_matches := phrase_matches st ++ (match r_match_type r with Phrase => [r] | _ => [] end);
     keyword_matches := keyword_matches st ++ (match r_match_type r with Keyword => [r] | _ => [] end);
     files_searched := files_searched st;
     files_skipped := files_skipped st; files_error := files_error st;
     visited := visited st; scanned := scanned st |}.

(** [f.read(n)]: at most [n] characters. *)
Fixpoint take_N (n : N) (s : str) : str :=
  match s with
  | [] => []
  | c :: s' => if (n =? 0)%N then [] else c :: take_N (N.pred n) s'
  end.

Definition ext_selected (cfg : config) (file : str) : bool :=
  existsb (fun ext => py_endswith (py_lower file) (py_lower ext)) (selected_extensions cfg).

(** The body of [for file in files:] once the cap check has passed. *)
Definition process_file (cfg : config) (original_query : str) (keywords : list str)
    (root : str) (f : file_entry) (st : scan_state) : scan_state :=
  let file_path := path_join root (fname f) in
  let st := set_visited file_path st in
  if negb (ext_selected cfg (fname f)) then st
  else
    match fsize f with
    | None => bump_error st
    | Some file_size =>
        if (MAX_FILE_SIZE cfg <? file_size)%N then bump_skipped st
        else if (file_size =? 0)%N then st
        else
          let st := bump_searched file_path st in
          match fcontent f with
          | None => bump_error st
          | Some text =>
              let content := take_N (MAX_FILE_SIZE cfg) text in
              match classify cfg original_query keywords content with
              | None => bump_error st
              | Some None => st
              | Some (Some (t, relevance, snippet)) =>
                  add_record {| r_path := file_path; r_filename := basename file_path;
                                r_snippet := snippet; r_size := file_size;
                                r_relevance := relevance; r_match_type := t |} st
              end
          end
    end.

(** [for file in files:] with the cap check at the top of the body. *)
Fixpoint scan_files (cfg : config) (original_query : str) (keywords : list str)
    (root : str) (files : list file_entry) (st : scan_state) : scan_state :=
  match files with
  | [] => st
  | f :: rest =>
      if MAX_FILES_TO_SEARCH cfg <=? files_searched st then st
      else scan_files cfg original_query keywords root rest
             (process_file cfg original_query keywords root f st)
  end.

(** [for root, dirs, files in os.walk(...)] with the cap check after each
    directory. *)
Fixpoint scan_walk (cfg : config) (original_query : str) (keywords : list str)
    (w : walk) (st : scan_state) : scan_state :=
  match w with
  | [] => st
  | (root, files) :: w' =>
      let st := scan_files cfg original_query keywords root files st in
      if MAX_FILES_TO_SEARCH cfg <=? files_searched st then st
      else scan_walk cfg original_query keywords w' st
  end.

(** ** Sorting: [list.sort(key=lambda x: x['relevance'], reverse=True)]
    (stable, descending). *)

Fixpoint insert_desc (r : match_record) (l : list match_record) : list match_record :=
  match l with
  | [] => [r]
  | y :: l' => if r_relevance y <=? r_relevance r then r :: y :: l'
               else y :: insert_desc r l'
  end.

Fixpoint sort_desc (l : list match_record) : list match_record :=
  match l with
  | [] => []
  | r :: l' => insert_desc r (sort_desc l')
  end.

(** ** Rendering ([format_prioritized_results]) *)

Definition nl : str := [10%N].
Definition quote : str := [39%N].
Definition bullet : str := [8226%N].

Fixpoint repeat_str (s : str) (n : nat) : str :=
  match n with O => [] | S n' => s ++ repeat_str s n' end.

(** [f"{x:.1f}"] of the exact quotient [num / den] (both are exact binary
    doubles here); Python rounds half to even. *)
Definition round_half_even (a b : N) : N :=
  let q := (a / b)%N in
  let rm := (a mod b)%N in
  if (2 * rm <? b)%N then q
  else if (b <? 2 * rm)%N then (q + 1)%N
  else if N.even q then q else (q + 1)%N.

Definition fmt_1f (num den : N) : str :=
  let r := round_half_even (10 * num) den in
  dec_N (r / 10) ++ lit "." ++ [(48 + r mod 10)%N].

Definition size_str (size_bytes : N) : str :=
  if (size_bytes <? 1024)%N then dec_N size_bytes ++ lit " B"
  else if (size_bytes <? 1024 * 1024)%N then fmt_1f size_bytes 1024 ++ lit " KB"
  else fmt_1f size_bytes (1024 * 1024) ++ lit " MB".

Definition match_indicator (t : tier) : str :=
  match t with
  | Exact => lit "[EXACT]"
  | Phrase => lit "[PHRASE]"
  | Keyword => lit "[KEYWORD]"
  end.

Definition header (files_searched files_skipped : nat) (query : str)
    (n_exact n_phrase n_keyword n_results : nat) : str :=
  lit "SEARCH RESULTS" ++ nl
  ++ lit "Query: " ++ quote ++ query ++ quote ++ nl
  ++ lit "Files searched: " ++ dec files_searched
  ++ (if 0 <? files_skipped then lit " (skipped " ++ dec files_skipped ++ lit " large files)"
      else [])
  ++ nl ++ nl ++ lit " MATCH SUMMARY:" ++ nl
  ++ lit "  Exact matches: " ++ dec n_exact ++ nl
  ++ lit "  Phrase matches: " ++ dec n_phrase ++ nl
  ++ lit "  Keyword matches: " ++ dec n_keyword ++ nl
  ++ lit "  Total matches: " ++ dec n_results ++ nl
  ++ repeat_str (lit "=") 60 ++ nl ++ nl.

Definition result_text (i : nat) (r : match_record) : str :=
  lit "[" ++ dec i ++ lit "] " ++ match_indicator (r_match_type r) ++ lit " "
  ++ match_type_label (r_match_type r) ++ lit " - " ++ r_filename r ++ nl
  ++ lit "    Path: " ++ r_path r ++ nl
  ++ lit "    Size: " ++ size_str (r_size r) ++ nl
  ++ lit "    Content: " ++ r_snippet r ++ nl
  ++ repeat_str (lit "-") 60 ++ nl ++ nl.

Definition truncation_marker : str :=
  lit "More results available but truncated to save space..." ++ nl.

Definition remaining_summary (remaining : nat) (any_exact : bool) : str :=
  nl ++ dec remaining ++ lit " additional matches not shown." ++ nl
  ++ (if any_exact then lit "Exact matches are shown first for best relevance." ++ nl
      else []).

Definition no_results_text : str :=
  lit "No files found matching your search." ++ nl ++ nl
  ++ lit "Suggestions:" ++ nl
  ++ lit "  " ++ bullet ++ lit " Try different or fewer keywords" ++ nl
  ++ lit "  " ++ bullet ++ lit " Check if file types are selected" ++ nl
  ++ lit "  " ++ bullet ++ lit " Verify the directory path is correct" ++ nl
  ++ lit "  " ++ bullet ++ lit " Check spelling of search terms" ++ nl.

(** [for i, result in enumerate(results, 1)]: the parts appended and the
    final [displayed_count]. *)
Fixpoint render_entries (cfg : config) (i displayed_count current_length : nat)
    (results : list match_record) : list str * nat :=
  match results with
  | [] => ([], displayed_count)
  | result :: rest =>
      if MAX_RESULTS_DISPLAY cfg <=? displayed_count then ([], displayed_count)
      else
        let t := result_text i result in
        if MAX_TOTAL_RESPONSE_LENGTH cfg <? current_length + length t
        then ([truncation_marker], displayed_count)
        else
          let (parts, d) :=
            render_entries cfg (S i) (S displayed_count) (current_length + length t) rest in
          (t :: parts, d)
  end.

Definition format_prioritized_results (cfg : config) (results : list match_record)
    (files_searched files_skipped : nat) (query : str)
    (exact phrase keyword : list match_record) : str :=
  let h := header files_searched files_skipped query (length exact) (length phrase)
             (length keyword) (length results) in
  let body :=
    match results with
    | [] => [no_results_text]
    | _ :: _ =>
        let (parts, displayed_count) := render_entries cfg 1 0 (length h) results in
        parts ++ (if displayed_count <? length results
                  then [remaining_summary (length results - displayed_count)
                          (0 <? length exact)]
                  else [])
    end in
  concat (h :: body).

(** ** [search_files] *)

Definition unreadable_footer (files_error : nat) : str :=
  nl ++ dec files_error ++ lit " files couldn't be read (permissions/encoding issues)".

Definition empty_query_message : str :=
  lit "Please provide meaningful search terms (2+ characters)".

(** The response built after the walk: buckets sorted, concatenated in
    the order exact, phrase, keyword, rendered, and the footer added. *)
Definition search_response (cfg : config) (original_query : str) (st : scan_state) : str :=
  let exact := sort_desc (exact_matches st) in
  let phrase := sort_desc (phrase_matches st) in
  let keyword := sort_desc (keyword_matches st) in
  let all_results := exact ++ phrase ++ keyword in
  let response :=
    format_prioritized_results cfg all_results (files_searched st) (files_skipped st)
      original_query exact phrase keyword in
  if 0 <? files_error st then response ++ unreadable_footer (files_error st)
  else response.

(** The message handed to [search_complete], with the scan state when a
    scan ran ([None]: the early return on an empty keyword list). *)
Definition search_files (cfg : config) (w : walk) (query : str) : str * option scan_state :=
  let original_query := py_strip query in
  let keywords := keywords_of original_query in
  match keywords with
  | [] => (empty_query_message, None)
  | _ :: _ =>
      let st := scan_walk cfg original_query keywords w init_state in
      (search_response cfg original_query st, Some st)
  end.

(** ** Notions used to state the properties *)

(** Number of positions of [s] at which [sub] starts (overlaps included). *)
Fixpoint occ_count (sub s : str) : nat :=
  (if is_prefix sub s then 1 else 0)
  + match s with [] => 0 | _ :: s' => occ_count sub s' end.

(** A file that [search_files] counts in [files_searched] when it reaches it. *)
Definition eligible (cfg : config) (f : file_entry) : bool :=
  ext_selected cfg (fname f)
  && match fsize f with
     | Some sz => negb (MAX_FILE_SIZE cfg <? sz)%N && negb (sz =? 0)%N
     | None => false
     end.

Definition tag_path (root : str) (f : file_entry) : str * file_entry :=
  (path_join root (fname f), f).

(** The files of a walk with their paths, in walk order. *)
Definition walk_files (w : walk) : list (str * file_entry) :=
  flat_map (fun '(root, files) => map (tag_path root) files) w.

(** A selected file whose sizing or reading raises. *)
Definition file_fails (cfg : config) (f : file_entry) : Prop :=
  ext_selected cfg (fname f) = true
  /\ (fsize f = None
      \/ exists sz, fsize f = Some sz /\ (0 < sz)%N /\ (sz <= MAX_FILE_SIZE cfg)%N
                    /\ fcontent f = None).

Definition total_records (st : scan_state) : nat :=
  length (exact_matches st) + length (phrase_matches st) + length (keyword_matches st).

(** The proximity-phrase condition as the spec words it: at least two
    tokens, and some occurrence (word index, words cleaned as the code does)
    of the first token has, for every other token, an occurrence of it
    within 50 words. *)
Definition spec_word_positions (content : str) (kw : str) : list nat :=
  map fst (filter (fun '(i, w) => str_eqb (strip_non_word (py_lower w)) kw)
                  (combine (seq 0 (length (py_split content))) (py_split content))).

Definition proximity_phrase_spec (content : str) (keywords : list str) : bool :=
  (2 <=? length keywords)
  && match keywords with
     | [] => false
     | k0 :: others =>
         existsb (fun pos1 =>
                    forallb (fun kw => existsb (near pos1) (spec_word_positions content kw))
                            others)
                 (spec_word_positions content k0)
     end.

(** ** The plain variant: [search_files] of safe_chatbot.py *)

Module Safe.

(** [keywords = [word.lower() for word in re.findall(r'\b\w+\b', query) if len(word) > 2]]
    (Python's tokens on ASCII queries) *)
Definition keywords_of (query : str) : list str :=
  map py_lower (filter (fun w => 2 <? length w) (findall_words query)).

Definition is_sentence_sep (c : char) : bool := N.eqb c 46 || N.eqb c 33 || N.eqb c 63.

(** [get_snippet] *)
Definition get_snippet (content : str) (keywords : list str) : str :=
  match find (fun sentence => existsb (fun kw => py_in kw (py_lower sentence)) keywords)
             (re_split is_sentence_sep content) with
  | Some sentence => firstn 200 (py_strip sentence) ++ ellipsis
  | None => firstn 200 content ++ ellipsis
  end.

Record result := {
  s_path : str;
  s_filename : str;
  s_snippet : str;
  s_size : N
}.

(** The body of [for file in files:]: the updated [files_searched] and
    [results]. *)
Definition process_file (cfg : config) (keywords : list str) (root : str)
    (f : file_entry) (acc : nat * list Safe.result) : nat * list result :=
  let (files_searched, results) := acc in
  if negb (ext_selected cfg (fname f)) then acc
  else
    let file_path := path_join root (fname f) in
    let files_searched := S files_searched in
    match fcontent f with
    | None => (files_searched, results)
    | Some text =>
        let content := py_lower text in
        if all_keywords_in keywords content then
          match fsize f with
          | None => (files_searched, results)
          | Some size =>
              (files_searched,
               results ++ [{| s_path := file_path; s_filename := basename file_path;
                              s_snippet := get_snippet content keywords; s_size := size |}])
          end
        else (files_searched, results)
    end.

Definition scan_walk (cfg : config) (keywords : list str) (w : walk) : nat * list result :=
  fold_left (fun acc '(root, files) =>
               fold_left (fun acc f => process_file cfg keywords root f acc) files acc)
            w (0, []).

(** The [results] list handed to [format_results] ([None]: the early
    return on an empty keyword list). *)
Definition search_files (cfg : config) (w : walk) (query : str) : option (list result) :=
  match keywords_of query with
  | [] => None
  | keywords => Some (snd (scan_walk cfg keywords w))
  end.

End Safe.

(** ** Helpers for stating the properties *)

Definition eligible_tagged (cfg : config) (p : str * file_entry) : bool := eligible cfg (snd p).

Definition eligible_file (n : string) : file_entry :=
  {| fname := lit n; fsize := Some 2%N; fcontent := Some (lit "ab") |}.

Definition desc (a b : match_record) : Prop := r_relevance b <= r_relevance a.

Definition with_relevance (k : nat) (r : match_record) : bool := Nat.eqb (r_relevance r) k.

Definition of_tier (t : tier) (r : match_record) : Prop := r_match_type r = t.

Definition buckets_typed (st : scan_state) : Prop :=
  Forall (of_tier Exact) (exact_matches st)
  /\ Forall (of_tier Phrase) (phrase_matches st)
  /\ Forall (of_tier Keyword) (keyword_matches st).

Definition rec_at (name : string) (t : tier) (rel : nat) : match_record :=
  {| r_path := lit name; r_filename := lit name; r_snippet := []; r_size := 1%N;
     r_relevance := rel; r_match_type := t |}.

(** ** Report entries as numbered by [enumerate(results, 1)] *)

Fixpoint numbered_texts (i : nat) (rs : list match_record) : list str :=
  match rs with
  | [] => []
  | r :: rs' => result_text i r :: numbered_texts (S i) rs'
  end.

(** ** The chat window *)

(** The message pane of [add_message] in radar_chatbot.py.  The pane's
    text is the content before Tk's implicit final newline, so
    [index('end-1c')] lies on line [1 + number of newlines]. *)
Definition newline_count (s : str) : nat := count_occ N.eq_dec s 10%N.

(** [if len(message) > 100000: message = message[:100000] + "\n\nMessage
    truncated for display"] *)
Definition truncate_for_display (message : str) : str :=
  if 100000 <? length message
  then firstn 100000 message ++ nl ++ nl ++ lit "Message truncated for display"
  else message.

(** Removing line 1 with its newline ([delete('1.0', '2.0')]); without a
    newline the index ['2.0'] is clamped to the end. *)
Fixpoint drop_line (s : str) : str :=
  match s with
  | [] => []
  | c :: s' => if (c =? 10)%N then s' else drop_line s'
  end.

(** [delete('1.0', f'{n + 1}.0')]: lines 1 to [n]. *)
Fixpoint drop_lines (n : nat) (s : str) : str :=
  match n with
  | O => s
  | S n' => drop_lines n' (drop_line s)
  end.

(** The text [add_message] inserts: [f"[{timestamp}] "] then [f"{message}\n"]. *)
Definition message_entry (timestamp message : str) : str :=
  lit "[" ++ timestamp ++ lit "] " ++ message ++ nl.

(** [add_message(message, tag)] on the pane's text, with the time
    [datetime.now().strftime("%H:%M:%S")] passed in as [timestamp]. *)
Definition add_message_text (timestamp message text : str) : str :=
  let message := truncate_for_display message in
  let text := text ++ message_entry timestamp message in
  let line_count := S (newline_count text) in
  if 1000 <? line_count then drop_lines (line_count - 1000 - 1) text else text.

(** The directory and file system the handlers query: [os.path.exists]
    and [os.walk] (which skips unreadable directories and does not raise). *)
Record fs := {
  path_exists : str -> bool;
  os_walk : str -> walk
}.

(** The attributes of [RadarFileChatbot] read or written by the handlers.
    [search_thread] holds the query of the background search started by
    [start_search] until [search_complete] runs. *)
Record app := {
  base_dir : str;
  dir_var : str;
  status_var : str;
  input_var : str;
  file_type_vars : list (str * bool);
  file_extensions : list str;
  searching : bool;
  messages_text : str;
  search_thread : option str
}.

Definition set_status (s : str) (st : app) : app :=
  {| base_dir := base_dir st; dir_var := dir_var st; status_var := s;
     input_var := input_var st; file_type_vars := file_type_vars st;
     file_extensions := file_extensions st; searching := searching st;
     messages_text := messages_text st; search_thread := search_thread st |}.

Definition set_base_dir (d : str) (st : app) : app :=
  {| base_dir := d; dir_var := dir_var st; status_var := status_var st;
     input_var := input_var st; file_type_vars := file_type_vars st;
     file_extensions := file_extensions st; searching := searching st;
     messages_text := messages_text st; search_thread := search_thread st |}.

Definition set_dir_var (d : str) (st : app) : app :=
  {| base_dir := base_dir st; dir_var := d; status_var := status_var st;
     input_var := input_var st; file_type_vars := file_type_vars st;
     file_extensions := file_extensions st; searching := searching st;
     messages_text := messages_text st; search_thread := search_thread st |}.

Definition set_input (s : str) (st : app) : app :=
  {| base_dir := base_dir st; dir_var := dir_var st; status_var := status_var st;
     input_var := s; file_type_vars := file_type_vars st;
     file_extensions := file_extensions st; searching := searching st;
     messages_text := messages_text st; search_thread := search_thread st |}.

Definition set_file_type_vars (v : list (str * bool)) (st : app) : app :=
  {| base_dir := base_dir st; dir_var := dir_var st; status_var := status_var st;
     input_var := input_var st; file_type_vars := v;
     file_extensions := file_extensions st; searching := searching st;
     messages_text := messages_text st; search_thread := search_thread st |}.

Definition set_file_extensions (e : list str) (st : app) : app :=
  {| base_dir := base_dir st; dir_var := dir_var st; status_var := status_var st;
     input_var := input_var st; file_type_vars := file_type_vars st;
     file_extensions := e; searching := searching st;
     messages_text := messages_text st; search_thread := search_thread st |}.

Definition set_messages_text (t : str) (st : app) : app :=
  {| base_dir := base_dir st; dir_var := dir_var st; status_var := status_var st;
     input_var := input_var st; file_type_vars := file_type_vars st;
     file_extensions := file_extensions st; searching := searching st;
     messages_text := t; search_thread := search_thread st |}.

Definition set_searching (b : bool) (thread : option str) (st : app) : app :=
  {| base_dir := base_dir st; dir_var := dir_var st; status_var := status_var st;
     input_var := input_var st; file_type_vars := file_type_vars st;
     file_extensions := file_extensions st; searching := b;
     messages_text := messages_text st; search_thread := thread |}.

(** [[ext for ext, var in self.file_type_vars.items() if var.get()]] *)
Definition selected_of (file_type_vars : list (str * bool)) : list str :=
  map fst (filter snd file_type_vars).

(** [any(file.lower().endswith(ext.lower()) for ext in selected_extensions)] *)
Definition ext_matches (selected_extensions : list str) (file : str) : bool :=
  existsb (fun ext => py_endswith (py_lower file) (py_lower ext)) selected_extensions.

(** The counting loop of [check_directory]. *)
Definition count_files (selected_extensions : list str) (w : walk) : nat :=
  fold_left (fun file_count '(root, files) =>
               fold_left (fun file_count f =>
                            if ext_matches selected_extensions (fname f)
                            then S file_count else file_count) files file_count)
            w 0.

(** The outcome of the checks of [check_directory] (its [except] branch
    is unreachable: [os.walk] reports no errors by default). *)
Inductive dir_check :=
| NoDirectory
| DirectoryMissing
| NoFileType
| DirectoryReady (directory : str) (file_count : nat).

Definition directory_check (env : fs) (st : app) : dir_check :=
  let directory := py_strip (dir_var st) in
  match directory with
  | [] => NoDirectory
  | _ :: _ =>
      if negb (path_exists env directory) then DirectoryMissing
      else
        match selected_of (file_type_vars st) with
        | [] => NoFileType
        | selected_extensions =>
            DirectoryReady directory (count_files selected_extensions (os_walk env directory))
        end
  end.

(** [check_directory] of radar_chatbot.py: the return value and the state. *)
Definition check_directory (env : fs) (st : app) : bool * app :=
  match directory_check env st with
  | NoDirectory => (false, set_status (lit "Please select a directory") st)
  | DirectoryMissing => (false, set_status (lit "Directory does not exist") st)
  | NoFileType => (false, set_status (lit "Please select at least one file type") st)
  | DirectoryReady directory file_count =>
      (true, set_base_dir directory
               (set_status (lit "Ready - Found " ++ dec file_count ++ lit " searchable files") st))
  end.

(** [add_message(message, tag)] (the tag only styles the text). *)
Definition add_message (timestamp message : str) (st : app) : app :=
  set_messages_text (add_message_text timestamp message (messages_text st)) st.

(** [start_search(query)]: the flag is set and the thread started. *)
Definition start_search (query : str) (st : app) : app :=
  set_searching true (Some query) st.

(** [send_message()] *)
Definition send_message (env : fs) (timestamp : str) (st : app) : app :=
  if searching st then st
  else
    let query := py_strip (input_var st) in
    match query with
    | [] => st
    | _ :: _ =>
        let st := set_input [] st in
        let st := add_message timestamp (lit "You: " ++ query) st in
        let (ok, st) := check_directory env st in
        if negb ok then add_message timestamp (lit "Please fix directory settings first") st
        else start_search query st
    end.

(** [search_complete(message)] *)
Definition search_complete (timestamp message : str) (st : app) : app :=
  set_searching false None (add_message timestamp message st).

(** The attributes [search_files] reads: the [MAX_*] limits of
    [setup_variables] and the ticked extensions. *)
Definition config_of (st : app) : config := {|
  MAX_FILE_SIZE := MAX_FILE_SIZE default_config;
  MAX_SNIPPET_LENGTH := MAX_SNIPPET_LENGTH default_config;
  MAX_RESULTS_DISPLAY := MAX_RESULTS_DISPLAY default_config;
  MAX_TOTAL_RESPONSE_LENGTH := MAX_TOTAL_RESPONSE_LENGTH default_config;
  MAX_FILES_TO_SEARCH := MAX_FILES_TO_SEARCH default_config;
  selected_extensions := selected_of (file_type_vars st)
|}.

(** The background thread running [search_files(query)] on [base_dir]
    and handing its message to [search_complete]. *)
Definition finish_search (env : fs) (timestamp : str) (st : app) : app :=
  match search_thread st with
  | None => st
  | Some query =>
      search_complete timestamp
        (fst (search_files (config_of st) (os_walk env (base_dir st)) query)) st
  end.

(** [browse_directory()] with the directory [askdirectory] returned
    ([""] on cancel). *)
Definition browse_directory (env : fs) (directory : str) (st : app) : app :=
  match directory with
  | [] => st
  | _ :: _ => snd (check_directory env (set_base_dir directory (set_dir_var directory st)))
  end.

(** [update_file_extensions()] *)
Definition update_file_extensions (env : fs) (st : app) : app :=
  let st := set_file_extensions (selected_of (file_type_vars st)) st in
  match file_extensions st with
  | [] => st
  | _ :: _ => snd (check_directory env st)
  end.

(** A checkbox click: Tk sets the [BooleanVar] of [ext], then runs the
    checkbox's command. *)
Definition toggle_file_type (env : fs) (ext : str) (on : bool) (st : app) : app :=
  update_file_extensions env
    (set_file_type_vars (map (fun '(e, v) => if str_eqb e ext then (e, on) else (e, v))
                            (file_type_vars st)) st).

(** What the user or the search thread does to the window. *)
Inductive event :=
| Send (timestamp : str)
| Type_input (text : str)
| Edit_directory (text : str)
| Browse (directory : str)
| Toggle (ext : str) (on : bool)
| Validate
| Search_done (timestamp : str).

Definition step (env : fs) (ev : event) (st : app) : app :=
  match ev with
  | Send ts => send_message env ts st
  | Type_input s => set_input s st
  | Edit_directory d => set_dir_var d st
  | Browse d => browse_directory env d st
  | Toggle ext on => toggle_file_type env ext on st
  | Validate => snd (check_directory env st)
  | Search_done ts => finish_search env ts st
  end.

Definition run_events (env : fs) (evs : list event) (st : app) : app :=
  fold_left (fun st ev => step env ev st) evs st.

(** [__init__]: [setup_variables], the widgets (checkboxes and an empty
    pane), the three welcome messages and [check_directory]. *)
Definition init_app (env : fs) (ts1 ts2 ts3 : str) : app :=
  let st := {| base_dir := lit "D:\bel\radar_data_sample120";
               dir_var := lit "D:\bel\radar_data_sample120";
               status_var := lit "Initializing...";
               input_var := [];
               file_type_vars :=
                 map (fun ext => (ext, str_mem ext [lit ".txt"; lit ".log"; lit ".dat"; lit ".csv"]))
                     [lit ".txt"; lit ".log"; lit ".dat"; lit ".csv"; lit ".json"; lit ".xml";
                      lit ".py"];
               file_extensions := [lit ".txt"; lit ".log"; lit ".dat"; lit ".csv"];
               searching := false;
               messages_text := [];
               search_thread := None |} in
  let st := add_message ts1 (lit "Chatbot Ready!") st in
  let st := add_message ts2 (lit "Welcome! I can help you search through your files.") st in
  let st := add_message ts3 (repeat_str (lit "-") 80) st in
  snd (check_directory env st).

(** [check_directory] of safe_chatbot.py: the same checks, its status
    strings carry a leading emoji. *)
Definition safe_check_directory (env : fs) (st : app) : bool * app :=
  match directory_check env st with
  | NoDirectory => (false, set_status ([10060%N] ++ lit " Please select a directory") st)
  | DirectoryMissing => (false, set_status ([10060%N] ++ lit " Directory does not exist") st)
  | NoFileType =>
      (false, set_status ([10060%N] ++ lit " Please select at least one file type") st)
  | DirectoryReady directory file_count =>
      (true, set_base_dir directory
               (set_status ([9989%N] ++ lit " Ready - Found " ++ dec file_count
                            ++ lit " searchable files") st))
  end.

(** The conditions under which [send_message] starts a search. *)
Definition search_can_start (env : fs) (st : app) : Prop :=
  searching st = false
  /\ py_strip (input_var st) <> []
  /\ py_strip (dir_var st) <> []
  /\ path_exists env (py_strip (dir_var st)) = true
  /\ selected_of (file_type_vars st) <> [].

(** The window invariant. *)
Definition window_ok (st : app) : Prop :=
  newline_count (messages_text st) <= 1000
  /\ (searching st = true <-> search_thread st <> None)
  /\ (forall query, search_thread st = Some query -> query <> []).

(** All match records of a scan, bucket by bucket. *)
Definition all_records (st : scan_state) : list match_record :=
  exact_matches st ++ phrase_matches st ++ keyword_matches st.

(** A character that keeps a snippet on one line: no whitespace but the
    plain space. *)
Definition one_line_char (c : char) : Prop := is_space c = false \/ c = 32%N.

(** A file name as [os.walk] lists it: without the separator. *)
Definition no_slash (name : str) : Prop := ~ In 47%N name.

(** * Proofs *)

(** ** Sample evaluations *)

Example dec_example : dec 1203 = lit "1203" /\ dec 0 = lit "0".
Proof. split; reflexivity. Qed.

Example classify_quick_brown_fox :
  classify default_config (lit "quick brown fox") (keywords_of (lit "quick brown fox"))
    (lit "The quick brown fox jumps.")
  = Some (Some (Exact, 1100, lit "The quick brown fox jumps.")).
Proof. vm_compute. reflexivity. Qed.

(** ** Basic facts about the string functions *)

Lemma is_prefix_spec (p s : str) :
  is_prefix p s = true <-> exists t, s = p ++ t.
Proof.
  revert s; induction p as [|x p IH]; intros s; simpl.
  - split; [intros _; exists s; reflexivity | reflexivity].
  - destruct s as [|y s].
    + split; [discriminate | intros [t Ht]; discriminate].
    + rewrite andb_true_iff, N.eqb_eq, IH. split.
      * intros [-> [t ->]]. exists t. reflexivity.
      * intros [t Ht]. injection Ht as -> Ht. split; [reflexivity | exists t; exact Ht].
Qed.

Lemma str_eqb_eq (a b : str) : str_eqb a b = true <-> a = b.
Proof.
  unfold str_eqb. rewrite andb_true_iff, is_prefix_spec, Nat.eqb_eq. split.
  - intros [[t ->] Hl]. rewrite length_app in Hl.
    destruct t; [rewrite app_nil_r; reflexivity | simpl in Hl; lia].
  - intros ->. split; [exists []; rewrite app_nil_r; reflexivity | reflexivity].
Qed.

Lemma str_mem_In (x : str) (l : list str) : str_mem x l = true <-> In x l.
Proof.
  unfold str_mem. rewrite existsb_exists. split.
  - intros [y [Hy Heq]]. apply str_eqb_eq in Heq. subst. exact Hy.
  - intros H. exists x. split; [exact H | apply str_eqb_eq; reflexivity].
Qed.

(** ** The keys of [word_positions] *)

Lemma add_pos_keys (wp : positions) (k : str) (i : nat) :
  map fst (add_pos wp k i) = if str_mem k (map fst wp) then map fst wp else map fst wp ++ [k].
Proof.
  induction wp as [|[k' ps] wp IH]; simpl; [reflexivity|].
  unfold str_mem in *; simpl.
  destruct (str_eqb k k') eqn:E; simpl; [reflexivity|].
  rewrite IH. destruct (existsb (str_eqb k) (map fst wp)); reflexivity.
Qed.

Lemma collect_positions_keys (keywords : list str) (i : nat) (words : list str)
    (wp : positions) :
  NoDup (map fst wp) -> incl (map fst wp) keywords ->
  let wp' := collect_positions keywords i words wp in
  NoDup (map fst wp') /\ incl (map fst wp') keywords.
Proof.
  revert i wp; induction words as [|word words IH]; intros i wp Hnd Hinc; simpl.
  - split; assumption.
  - apply IH.
    + destruct (str_mem _ keywords); [|exact Hnd].
      rewrite add_pos_keys. destruct (str_mem _ (map fst wp)) eqn:Em; [exact Hnd|].
      apply NoDup_app; [exact Hnd | constructor; [intros []|constructor] |].
      intros x Hx [<-|[]]. apply (proj2 (str_mem_In _ _)) in Hx. congruence.
    + destruct (str_mem _ keywords) eqn:Ek; [|exact Hinc].
      rewrite add_pos_keys. destruct (str_mem _ (map fst wp)); [exact Hinc|].
      intros x Hx. apply in_app_or in Hx. destruct Hx as [Hx|[<-|[]]].
      * apply Hinc, Hx.
      * apply str_mem_In, Ek.
Qed.

Lemma collect_positions_short (keywords : list str) (words : list str) :
  ~ NoDup keywords ->
  length (collect_positions keywords 0 words []) < length keywords.
Proof.
  intros Hdup.
  destruct (collect_positions_keys keywords 0 words [] (NoDup_nil _)
              (fun x (H : In x []) => match H with end)) as [Hnd Hinc].
  rewrite <- (length_map fst).
  destruct (Nat.lt_ge_cases (length (map fst (collect_positions keywords 0 words [])))
              (length keywords)) as [Hlt|Hge]; [exact Hlt|].
  exfalso. apply Hdup. eapply NoDup_incl_NoDup; eassumption.
Qed.

(** ** Claim C10 *)

(** C10: when the keyword list contains some token twice,
    [check_phrase_proximity] returns [False] on every content: the number of
    distinct keys of [word_positions] can never reach the length of a list
    with repeats. *)
Theorem check_phrase_proximity_repeated_token (content : str) (keywords : list str) :
  ~ NoDup keywords -> check_phrase_proximity content keywords = Some false.
Proof.
  intros Hdup. unfold check_phrase_proximity.
  destruct (length keywords <? 2); [reflexivity|].
  pose proof (collect_positions_short keywords (py_split content) Hdup) as Hlt.
  destruct (Nat.eqb_spec (length (collect_positions keywords 0 (py_split content) []))
              (length keywords)) as [Heq|_]; [lia | reflexivity].
Qed.

Lemma check_phrase_proximity_repeated_token_witness :
  ~ NoDup [lit "ab"; lit "ab"]
  /\ check_phrase_proximity (lit "ab ab cd") [lit "ab"; lit "ab"] = Some false.
Proof.
  assert (H : ~ NoDup [lit "ab"; lit "ab"]).
  { intros Hnd. inversion Hnd as [|x l Hx _]. apply Hx. left. reflexivity. }
  split; [exact H|].
  apply (check_phrase_proximity_repeated_token (lit "ab ab cd") _ H).
Defined.

(** ** Claim C5 *)

(** C5: with the query ["ab ab"] and the content ["ab"], the content has no
    exact match and satisfies the proximity condition as the spec states it
    (which predicts tier Phrase with score 500 + 10 * 2 = 520), but the
    code files it under Keyword with score 10. *)
Theorem proximity_repeated_token_falls_to_keyword :
  py_in (py_lower (lit "ab ab")) (py_lower (lit "ab")) = false
  /\ keywords_of (lit "ab ab") = [lit "ab"; lit "ab"]
  /\ proximity_phrase_spec (py_lower (lit "ab")) (keywords_of (lit "ab ab")) = true
  /\ 500 + 10 * sum_counts (keywords_of (lit "ab ab")) (py_lower (lit "ab")) = 520
  /\ classify default_config (lit "ab ab") (keywords_of (lit "ab ab")) (lit "ab")
     = Some (Some (Keyword, 10, lit "ab")).
Proof. vm_compute. repeat split. Qed.

(** ** Substrings, [strip] and [count] *)

Lemma py_find_from_some (i : nat) (sub s : str) :
  (exists k, py_find_from i sub s = Some k) <-> exists a b, s = a ++ sub ++ b.
Proof.
  revert i; induction s as [|c s IH]; intros i; simpl.
  - destruct (is_prefix sub []) eqn:E.
    + apply is_prefix_spec in E as [t Ht]. destruct sub; [|discriminate].
      split; intros _; [exists [], []; reflexivity | exists i; reflexivity].
    + split; [intros [k Hk]; discriminate|].
      intros [a [b Hab]]. destruct a, sub; simpl in *; discriminate.
  - destruct (is_prefix sub (c :: s)) eqn:E.
    + apply is_prefix_spec in E as [t Ht].
      split; intros _; [exists [], t; exact Ht | exists i; reflexivity].
    + rewrite IH. split.
      * intros [a [b ->]]. exists (c :: a), b. reflexivity.
      * intros [a [b Hab]]. destruct a as [|c' a].
        -- exfalso. simpl in Hab. assert (is_prefix sub (c :: s) = true) as E'
             by (apply is_prefix_spec; exists b; exact Hab). congruence.
        -- injection Hab as _ Hab. exists a, b. exact Hab.
Qed.

Lemma py_in_spec (sub s : str) : py_in sub s = true <-> exists a b, s = a ++ sub ++ b.
Proof.
  unfold py_in, py_find. rewrite <- (py_find_from_some 0).
  destruct (py_find_from 0 sub s); split.
  - intros _. eexists; reflexivity.
  - reflexivity.
  - discriminate.
  - intros [k Hk]. discriminate.
Qed.



Lemma py_lower_app (a b : str) : py_lower (a ++ b) = py_lower a ++ py_lower b.
Proof. apply map_app. Qed.





Lemma count_nonoverlap_pos (sub s : str) :
  sub <> [] -> 0 < occ_count sub s -> 0 < count_nonoverlap (length s) sub s.
Proof.
  intros Hsub. induction s as [|c s IH]; simpl.
  - destruct sub; [congruence|]. simpl. lia.
  - destruct (is_prefix sub (c :: s)); [lia|]. simpl. exact IH.
Qed.


(** ** Claim C1 *)





(** ** Claim C4 *)



Example py_count_non_overlapping : py_count (lit "aa") (lit "aaaa") = 2
  /\ occ_count (lit "aa") (lit "aaaa") = 3.
Proof. split; reflexivity. Qed.

(** ** The walk: which files are visited and counted *)

Lemma process_file_trace (cfg : config) (original_query : str) (keywords : list str)
    (root : str) (f : file_entry) (st : scan_state) :
  let st' := process_file cfg original_query keywords root f st in
  visited st' = visited st ++ [path_join root (fname f)]
  /\ files_searched st' = files_searched st + (if eligible cfg f then 1 else 0)
  /\ scanned st' = scanned st ++ (if eligible cfg f then [path_join root (fname f)] else []).
Proof.
  unfold process_file, eligible.
  destruct (ext_selected cfg (fname f)); simpl;
    [|repeat split; [lia | rewrite app_nil_r; reflexivity]].
  destruct (fsize f) as [sz|]; simpl;
    [|repeat split; [lia | rewrite app_nil_r; reflexivity]].
  destruct (MAX_FILE_SIZE cfg <? sz)%N; simpl;
    [repeat split; [lia | rewrite app_nil_r; reflexivity]|].
  destruct (sz =? 0)%N; simpl;
    [repeat split; [lia | rewrite app_nil_r; reflexivity]|].
  destruct (fcontent f) as [text|]; simpl; [|repeat split; lia].
  destruct (classify cfg original_query keywords _) as [[[[t rel] snip]|]|]; simpl;
    repeat split; lia.
Qed.

Lemma scan_files_trace (cfg : config) (original_query : str) (keywords : list str)
    (root : str) (files : list file_entry) (st : scan_state) :
  files_searched st <= MAX_FILES_TO_SEARCH cfg ->
  exists pre rest,
    map (tag_path root) files = pre ++ rest
    /\ (let st' := scan_files cfg original_query keywords root files st in
        visited st' = visited st ++ map fst pre
        /\ scanned st' = scanned st ++ map fst (filter (eligible_tagged cfg) pre)
        /\ files_searched st' = files_searched st + length (filter (eligible_tagged cfg) pre)
        /\ files_searched st' <= MAX_FILES_TO_SEARCH cfg
        /\ (rest <> [] -> MAX_FILES_TO_SEARCH cfg <= files_searched st')).
Proof.
  revert st; induction files as [|f files IH]; intros st Hle.
  - exists [], []. simpl. rewrite !app_nil_r. repeat split; try lia. congruence.
  - simpl. destruct (Nat.leb_spec (MAX_FILES_TO_SEARCH cfg) (files_searched st)) as [Hcap|Hcap].
    + exists [], (tag_path root f :: map (tag_path root) files).
      simpl. rewrite !app_nil_r. repeat split; lia.
    + destruct (process_file_trace cfg original_query keywords root f st) as [Hv [Hs Hsc]].
      destruct (IH (process_file cfg original_query keywords root f st)) as
        [pre [rest [Heq [Hv' [Hsc' [Hs' [Hle' Hrest]]]]]]].
      { rewrite Hs. destruct (eligible cfg f); lia. }
      exists (tag_path root f :: pre), rest. simpl. rewrite Heq.
      split; [reflexivity|].
      assert (He : eligible_tagged cfg (tag_path root f) = eligible cfg f) by reflexivity.
      simpl. rewrite He. rewrite Hs' in Hrest, Hle'. rewrite Hs in Hrest, Hle'.
      rewrite Hv', Hsc', Hs', Hv, Hs, Hsc.
      destruct (eligible cfg f); simpl; rewrite <- !app_assoc; repeat split; try lia;
        intros Hne; specialize (Hrest Hne); lia.
Qed.

Lemma scan_walk_trace (cfg : config) (original_query : str) (keywords : list str)
    (w : walk) (st : scan_state) :
  files_searched st <= MAX_FILES_TO_SEARCH cfg ->
  exists pre rest,
    walk_files w = pre ++ rest
    /\ (let st' := scan_walk cfg original_query keywords w st in
        visited st' = visited st ++ map fst pre
        /\ scanned st' = scanned st ++ map fst (filter (eligible_tagged cfg) pre)
        /\ files_searched st' = files_searched st + length (filter (eligible_tagged cfg) pre)
        /\ files_searched st' <= MAX_FILES_TO_SEARCH cfg
        /\ (rest <> [] -> MAX_FILES_TO_SEARCH cfg <= files_searched st')).
Proof.
  revert st; induction w as [|[root files] w IH]; intros st Hle.
  - exists [], []. simpl. rewrite !app_nil_r. repeat split; try lia. congruence.
  - destruct (scan_files_trace cfg original_query keywords root files st Hle) as
      [pre1 [rest1 [Heq1 [Hv1 [Hsc1 [Hs1 [Hle1 Hrest1]]]]]]].
    simpl. change (walk_files w) with (flat_map (fun '(root, files) => map (tag_path root) files) w).
    set (st1 := scan_files cfg original_query keywords root files st) in *.
    destruct (MAX_FILES_TO_SEARCH cfg <=? files_searched st1) eqn:Ecap.
    + apply Nat.leb_le in Ecap.
      exists pre1, (rest1 ++ walk_files w). rewrite Heq1, <- app_assoc.
      split; [reflexivity|]. repeat split; try assumption; intros _; lia.
    + apply Nat.leb_gt in Ecap.
      assert (rest1 = []) as ->.
      { destruct rest1; [reflexivity|]. exfalso. specialize (Hrest1 ltac:(discriminate)). lia. }
      rewrite app_nil_r in Heq1.
      destruct (IH st1 Hle1) as [pre2 [rest2 [Heq2 [Hv2 [Hsc2 [Hs2 [Hle2 Hrest2]]]]]]].
      exists (pre1 ++ pre2), rest2. rewrite Heq1.
      change (flat_map (fun '(root, files) => map (tag_path root) files) w) with (walk_files w).
      rewrite Heq2, <- app_assoc. split; [reflexivity|].
      rewrite Hv2, Hsc2, Hs2, Hv1, Hsc1, Hs1, filter_app, !map_app, length_app, <- !app_assoc.
      rewrite Hs2, Hs1 in Hrest2. rewrite Hs2, Hs1 in Hle2.
      repeat split; try lia; assumption.
Qed.

(** ** Claim C3 *)

(** C3: whenever a scan runs, [files_searched] never exceeds
    [MAX_FILES_TO_SEARCH]; the files visited form a prefix of the walk, and
    with a cap of 2 and 5 eligible files exactly 2 are counted and the 3
    other eligible files lie after the visited prefix. *)
Theorem files_searched_capped (cfg : config) (w : walk) (q : str) :
  keywords_of (py_strip q) <> [] ->
  exists st,
    snd (search_files cfg w q) = Some st
    /\ files_searched st <= MAX_FILES_TO_SEARCH cfg
    /\ (exists pre rest,
          walk_files w = pre ++ rest
          /\ visited st = map fst pre
          /\ scanned st = map fst (filter (eligible_tagged cfg) pre)
          /\ files_searched st = length (filter (eligible_tagged cfg) pre)
          /\ (rest <> [] -> files_searched st = MAX_FILES_TO_SEARCH cfg))
    /\ (MAX_FILES_TO_SEARCH cfg = 2 ->
        length (filter (eligible_tagged cfg) (walk_files w)) = 5 ->
        files_searched st = 2
        /\ exists pre rest,
             walk_files w = pre ++ rest
             /\ visited st = map fst pre
             /\ length (filter (eligible_tagged cfg) pre) = 2
             /\ length (filter (eligible_tagged cfg) rest) = 3).
Proof.
  intros Hkw. unfold search_files.
  destruct (keywords_of (py_strip q)) as [|k ks] eqn:Ek; [congruence|].
  set (st := scan_walk cfg (py_strip q) (k :: ks) w init_state).
  destruct (scan_walk_trace cfg (py_strip q) (k :: ks) w init_state ltac:(simpl; lia)) as
    [pre [rest [Heq [Hv [Hsc [Hs [Hle Hrest]]]]]]].
  fold st in Hv, Hsc, Hs, Hle, Hrest. simpl in Hv, Hsc, Hs.
  exists st. split; [reflexivity|]. split; [exact Hle|]. split.
  - exists pre, rest. repeat split; try assumption. intros Hne. specialize (Hrest Hne). lia.
  - intros H2 H5. rewrite Heq, filter_app, length_app in H5.
    destruct rest as [|r rest'].
    + exfalso. simpl in H5. lia.
    + specialize (Hrest ltac:(discriminate)). split; [lia|].
      exists pre, (r :: rest'). repeat split; try assumption; lia.
Qed.

Lemma files_searched_capped_witness :
  let cfg := {| MAX_FILE_SIZE := 10 * 1024 * 1024; MAX_SNIPPET_LENGTH := 200;
                MAX_RESULTS_DISPLAY := 8; MAX_TOTAL_RESPONSE_LENGTH := 50000;
                MAX_FILES_TO_SEARCH := 2; selected_extensions := [lit ".txt"] |} in
  let w : walk := [(lit "/d", [eligible_file "a.txt"; eligible_file "b.txt";
                               eligible_file "c.txt"; eligible_file "d.txt";
                               eligible_file "e.txt"])] in
  exists st, snd (search_files cfg w (lit "ab")) = Some st /\ files_searched st = 2
             /\ visited st = [lit "/d/a.txt"; lit "/d/b.txt"].
Proof.
  intros cfg w.
  destruct (files_searched_capped cfg w (lit "ab") ltac:(vm_compute; discriminate))
    as [st [Hst [_ [_ Hscen]]]].
  exists st. split; [exact Hst|].
  destruct (Hscen eq_refl ltac:(vm_compute; reflexivity)) as [H2 _].
  split; [exact H2|].
  vm_compute in Hst. injection Hst as <-. reflexivity.
Defined.

(** ** Claim C6 *)

Lemma runs_aux_all (p : char -> bool) (cur s : str) :
  forallb p cur = true -> Forall (fun r => forallb p r = true) (runs_aux p cur s).
Proof.
  assert (Hrev : forall l, forallb p l = true -> forallb p (rev' l) = true).
  { intros l Hl. unfold rev'. rewrite <- rev_alt. apply forallb_forall. intros x Hx. apply in_rev in Hx.
    exact (proj1 (forallb_forall p l) Hl x Hx). }
  revert cur; induction s as [|c s IH]; intros cur Hcur; simpl.
  - destruct cur; [constructor|]. constructor; [apply Hrev, Hcur | constructor].
  - destruct (p c) eqn:Ep.
    + apply IH. simpl. rewrite Ep, Hcur. reflexivity.
    + destruct cur; [apply IH; reflexivity|].
      constructor; [apply Hrev, Hcur | apply IH; reflexivity].
Qed.






(** ** Claim C7 *)

(** C7: a selected file whose sizing or reading raises (below the cap)
    only increments [files_error]: the buckets are untouched and the loop
    goes on with the next file; a non-zero [files_error] appends the
    unreadable-files footer to the response. *)
Theorem unreadable_file_counted (cfg : config) (original_query : str)
    (keywords : list str) (root : str) (f : file_entry) (rest : list file_entry)
    (st : scan_state) :
  files_searched st < MAX_FILES_TO_SEARCH cfg ->
  file_fails cfg f ->
  (exists st',
     scan_files cfg original_query keywords root (f :: rest) st
     = scan_files cfg original_query keywords root rest st'
     /\ exact_matches st' = exact_matches st
     /\ phrase_matches st' = phrase_matches st
     /\ keyword_matches st' = keyword_matches st
     /\ files_error st' = S (files_error st))
  /\ (forall st0, 0 < files_error st0 ->
        exists body, search_response cfg original_query st0
                     = body ++ unreadable_footer (files_error st0)).
Proof.
  intros Hcap [Hext Hfail]. split.
  - exists (process_file cfg original_query keywords root f st). split.
    + simpl. replace (MAX_FILES_TO_SEARCH cfg <=? files_searched st) with false
        by (symmetry; apply Nat.leb_gt; exact Hcap). reflexivity.
    + unfold process_file. rewrite Hext. simpl.
      destruct Hfail as [Hnone | [sz [Hsz [Hpos [Hle Hc]]]]].
      * rewrite Hnone. simpl. repeat split.
      * rewrite Hsz. simpl.
        replace (MAX_FILE_SIZE cfg <? sz)%N with false by (symmetry; apply N.ltb_ge; lia).
        replace (sz =? 0)%N with false by (symmetry; apply N.eqb_neq; lia).
        rewrite Hc. simpl. repeat split.
  - intros st0 Hpos. unfold search_response.
    replace (0 <? files_error st0) with true by (symmetry; apply Nat.ltb_lt; exact Hpos).
    eexists. reflexivity.
Qed.

Lemma unreadable_file_counted_witness :
  let f := {| fname := lit "locked.txt"; fsize := None; fcontent := None |} in
  exists st', scan_files default_config (lit "ab") [lit "ab"] (lit "/d")
                [f; eligible_file "a.txt"] init_state
              = scan_files default_config (lit "ab") [lit "ab"] (lit "/d")
                  [eligible_file "a.txt"] st'
              /\ files_error st' = 1.
Proof.
  intros f.
  assert (Hf : file_fails default_config f)
    by (split; [vm_compute; reflexivity | left; reflexivity]).
  destruct (unreadable_file_counted default_config (lit "ab") [lit "ab"] (lit "/d") f
              [eligible_file "a.txt"] init_state ltac:(vm_compute; lia) Hf)
    as [[st' [Heq [_ [_ [_ Herr]]]]] _].
  exists st'. split; [exact Heq | rewrite Herr; reflexivity].
Defined.

(** ** Sorting *)

Lemma insert_desc_perm (r : match_record) (l : list match_record) :
  Permutation (r :: l) (insert_desc r l).
Proof.
  induction l as [|y l IH]; simpl; [reflexivity|].
  destruct (r_relevance y <=? r_relevance r); [reflexivity|].
  rewrite <- IH. apply perm_swap.
Qed.

Lemma sort_desc_perm (l : list match_record) : Permutation l (sort_desc l).
Proof.
  induction l as [|r l IH]; simpl; [reflexivity|].
  rewrite <- insert_desc_perm. constructor. exact IH.
Qed.

Lemma insert_desc_sorted (r : match_record) (l : list match_record) :
  Sorted desc l -> Sorted desc (insert_desc r l).
Proof.
  induction l as [|y l IH]; intros Hs; simpl; [repeat constructor|].
  destruct (Nat.leb_spec (r_relevance y) (r_relevance r)) as [Hle|Hgt].
  - constructor; [exact Hs | constructor; exact Hle].
  - apply Sorted_inv in Hs as [Hs Hhd]. constructor; [apply IH, Hs|].
    destruct l as [|z l]; simpl.
    + constructor. unfold desc. lia.
    + apply HdRel_inv in Hhd. destruct (r_relevance z <=? r_relevance r);
        constructor; unfold desc in *; lia.
Qed.

Lemma sort_desc_sorted (l : list match_record) : Sorted desc (sort_desc l).
Proof.
  induction l as [|r l IH]; simpl; [constructor|]. apply insert_desc_sorted, IH.
Qed.

Lemma insert_desc_filter (k : nat) (r : match_record) (l : list match_record) :
  filter (with_relevance k) (insert_desc r l) = filter (with_relevance k) (r :: l).
Proof.
  induction l as [|y l IH]; simpl; [reflexivity|].
  destruct (Nat.leb_spec (r_relevance y) (r_relevance r)) as [Hle|Hgt]; [reflexivity|].
  simpl. rewrite IH. simpl. unfold with_relevance.
  destruct (Nat.eqb_spec (r_relevance r) k), (Nat.eqb_spec (r_relevance y) k);
    try reflexivity; lia.
Qed.

Lemma sort_desc_stable (k : nat) (l : list match_record) :
  filter (with_relevance k) (sort_desc l) = filter (with_relevance k) l.
Proof.
  induction l as [|r l IH]; simpl; [reflexivity|].
  rewrite insert_desc_filter. simpl. rewrite IH. reflexivity.
Qed.

Lemma process_file_typed (cfg : config) (original_query : str) (keywords : list str)
    (root : str) (f : file_entry) (st : scan_state) :
  buckets_typed st -> buckets_typed (process_file cfg original_query keywords root f st).
Proof.
  intros Ht. unfold process_file.
  destruct (ext_selected cfg (fname f)); simpl; [|exact Ht].
  destruct (fsize f) as [sz|]; simpl; [|exact Ht].
  destruct (MAX_FILE_SIZE cfg <? sz)%N; simpl; [exact Ht|].
  destruct (sz =? 0)%N; simpl; [exact Ht|].
  destruct (fcontent f) as [text|]; simpl; [|exact Ht].
  destruct (classify cfg original_query keywords _) as [[[[t rel] snip]|]|]; simpl;
    [|exact Ht|exact Ht].
  destruct Ht as [He [Hp Hk]].
  destruct t; simpl; unfold buckets_typed; simpl; rewrite ?app_nil_r;
    repeat split; try assumption; apply Forall_app; split; try assumption;
    repeat constructor.
Qed.

Lemma scan_walk_typed (cfg : config) (original_query : str) (keywords : list str)
    (w : walk) (st : scan_state) :
  buckets_typed st -> buckets_typed (scan_walk cfg original_query keywords w st).
Proof.
  assert (Hfiles : forall root files st, buckets_typed st ->
            buckets_typed (scan_files cfg original_query keywords root files st)).
  { intros root files. induction files as [|f files IH]; intros st' Ht; simpl; [exact Ht|].
    destruct (MAX_FILES_TO_SEARCH cfg <=? files_searched st'); [exact Ht|].
    apply IH, process_file_typed, Ht. }
  revert st; induction w as [|[root files] w IH]; intros st Ht; simpl; [exact Ht|].
  destruct (MAX_FILES_TO_SEARCH cfg <=? _); [apply Hfiles, Ht|].
  apply IH, Hfiles, Ht.
Qed.

(** ** Claim C8 *)

(** C8: the response renders [sort_desc E ++ sort_desc P ++ sort_desc K],
    the exact, phrase and keyword buckets each holding only records of its
    tier; [sort_desc] (Python's [sort(key=relevance, reverse=True)]) is a
    permutation, sorted by descending relevance, and keeps the original
    order among records of equal relevance. *)
Theorem results_sorted_by_tier (cfg : config) (w : walk) (q : str) :
  keywords_of (py_strip q) <> [] ->
  exists st footer,
    snd (search_files cfg w q) = Some st
    /\ buckets_typed st
    /\ fst (search_files cfg w q)
       = format_prioritized_results cfg
           (sort_desc (exact_matches st) ++ sort_desc (phrase_matches st)
              ++ sort_desc (keyword_matches st))
           (files_searched st) (files_skipped st) (py_strip q)
           (sort_desc (exact_matches st)) (sort_desc (phrase_matches st))
           (sort_desc (keyword_matches st)) ++ footer
    /\ (forall l, Permutation l (sort_desc l) /\ Sorted desc (sort_desc l)
                  /\ forall k, filter (with_relevance k) (sort_desc l)
                               = filter (with_relevance k) l).
Proof.
  intros Hkw. unfold search_files.
  destruct (keywords_of (py_strip q)) as [|k ks] eqn:Ek; [congruence|].
  set (st := scan_walk cfg (py_strip q) (k :: ks) w init_state).
  exists st, (if 0 <? files_error st then unreadable_footer (files_error st) else []).
  split; [reflexivity|]. split.
  { apply scan_walk_typed. repeat constructor. }
  split.
  - simpl. unfold search_response. destruct (0 <? files_error st);
      [reflexivity | rewrite app_nil_r; reflexivity].
  - intros l. split; [apply sort_desc_perm|]. split; [apply sort_desc_sorted|].
    intros kk. apply sort_desc_stable.
Qed.

Lemma results_sorted_by_tier_witness :
  (exists st footer, snd (search_files default_config [] (lit "ab")) = Some st
     /\ fst (search_files default_config [] (lit "ab"))
        = format_prioritized_results default_config [] 0 0 (lit "ab") [] [] [] ++ footer)
  /\ sort_desc [rec_at "a" Keyword 5; rec_at "b" Keyword 9; rec_at "c" Keyword 5]
     = [rec_at "b" Keyword 9; rec_at "a" Keyword 5; rec_at "c" Keyword 5].
Proof.
  destruct (results_sorted_by_tier default_config [] (lit "ab") ltac:(vm_compute; discriminate))
    as [st [footer [Hst [_ [Hmsg _]]]]].
  split; [|reflexivity].
  exists st, footer. split; [exact Hst|].
  rewrite Hmsg. vm_compute in Hst. injection Hst as <-. reflexivity.
Defined.

(** ** Claim C2 *)

Lemma render_entries_exact (cfg : config) (results : list match_record)
    (i d cur : nat) (parts : list str) (d' : nat) :
  render_entries cfg i d cur results = (parts, d') ->
  exists k tail,
    parts = firstn k (numbered_texts i results) ++ tail
    /\ d' = d + k /\ k <= length results
    /\ (d <= MAX_RESULTS_DISPLAY cfg -> d + k <= MAX_RESULTS_DISPLAY cfg)
    /\ (forall j, 0 < j <= k ->
          cur + length (concat (firstn j (numbered_texts i results)))
          <= MAX_TOTAL_RESPONSE_LENGTH cfg)
    /\ ((tail = [truncation_marker] /\ k < length results /\ d + k < MAX_RESULTS_DISPLAY cfg
         /\ MAX_TOTAL_RESPONSE_LENGTH cfg
            < cur + length (concat (firstn (S k) (numbered_texts i results))))
        \/ (tail = [] /\ (k = length results \/ MAX_RESULTS_DISPLAY cfg <= d + k))).
Proof.
  revert i d cur parts d'.
  induction results as [|r rs IH]; intros i d cur parts d' Hr; cbn [render_entries] in Hr.
  - injection Hr as <- <-. exists 0, []. simpl.
    repeat split; try lia. right. split; [reflexivity | left; reflexivity].
  - destruct (MAX_RESULTS_DISPLAY cfg <=? d) eqn:Ecap.
    + apply Nat.leb_le in Ecap. injection Hr as <- <-. exists 0, []. simpl.
      repeat split; try lia. right. split; [reflexivity | right; lia].
    + apply Nat.leb_gt in Ecap. cbv zeta in Hr.
      destruct (MAX_TOTAL_RESPONSE_LENGTH cfg <? cur + length (result_text i r)) eqn:Hfit;
        [apply Nat.ltb_lt in Hfit | apply Nat.ltb_ge in Hfit].
      * injection Hr as <- <-. exists 0, [truncation_marker].
        split; [reflexivity|]. split; [lia|]. split; [simpl; lia|]. split; [lia|].
        split; [intros; lia|]. left. split; [reflexivity|]. split; [simpl; lia|].
        split; [lia|]. cbn [numbered_texts firstn concat]. rewrite app_nil_r. lia.
      * destruct (render_entries cfg (S i) (S d) (cur + length (result_text i r)) rs)
          as [parts' d''] eqn:Er.
        injection Hr as <- <-.
        destruct (IH _ _ _ _ _ Er) as [k [tail [Hp [Hd [Hk [Hdisp [Hfits Hend]]]]]]].
        exists (S k), tail.
        change (numbered_texts i (r :: rs)) with (result_text i r :: numbered_texts (S i) rs).
        change (length (r :: rs)) with (S (length rs)). rewrite Hp.
        split; [reflexivity|]. split; [lia|]. split; [lia|]. split; [intros; lia|].
        split.
        -- intros [|j] Hj; [lia|]. rewrite firstn_cons, concat_cons, length_app.
           destruct j as [|j].
           ++ cbn [firstn concat length]. lia.
           ++ specialize (Hfits (S j) ltac:(lia)). lia.
        -- destruct Hend as [[Ht [Hlt [Hdl Hover]]] | [Ht Hor]].
           ++ left. split; [exact Ht|]. split; [lia|]. split; [lia|].
              rewrite firstn_cons, concat_cons, length_app. lia.
           ++ right. split; [exact Ht|]. lia.
Qed.

(** C2 (as the code does it): the response is the header, then the
    numbered entries committed under the budget, then at most the
    truncation marker, the no-results block or the "additional matches not
    shown" note, and the unreadable-files footer.  An entry is committed
    only when the header plus the entries so far plus that entry fit in
    [MAX_TOTAL_RESPONSE_LENGTH]; the truncation marker appears exactly when
    the loop stops at the first entry that does not fit (it is then the
    last part before the note), and otherwise the loop stopped at the end
    of the results or after [MAX_RESULTS_DISPLAY] entries.  So header and
    committed entries stay within [MAX_TOTAL_RESPONSE_LENGTH] (or within
    the header's own length when the header alone exceeds it); the trailing
    parts are not budgeted, and entries left out are always announced by
    the note. *)
Theorem response_budget_on_entries (cfg : config) (original_query : str) (st : scan_state) :
  let exact := sort_desc (exact_matches st) in
  let phrase := sort_desc (phrase_matches st) in
  let keyword := sort_desc (keyword_matches st) in
  let results := exact ++ phrase ++ keyword in
  let h := header (files_searched st) (files_skipped st) original_query (length exact)
             (length phrase) (length keyword) (length results) in
  let texts := numbered_texts 1 results in
  let footer := if 0 <? files_error st then unreadable_footer (files_error st) else [] in
  (results = [] -> search_response cfg original_query st = h ++ no_results_text ++ footer)
  /\ (results <> [] ->
      exists n t1,
        search_response cfg original_query st
        = h ++ concat (firstn n texts) ++ t1
            ++ (if n <? length results
                then remaining_summary (length results - n) (0 <? length exact)
                else [])
            ++ footer
        /\ n <= length results /\ n <= MAX_RESULTS_DISPLAY cfg
        /\ (forall j, 0 < j <= n ->
              length h + length (concat (firstn j texts)) <= MAX_TOTAL_RESPONSE_LENGTH cfg)
        /\ length (h ++ concat (firstn n texts))
           <= Nat.max (MAX_TOTAL_RESPONSE_LENGTH cfg) (length h)
        /\ ((t1 = truncation_marker /\ n < length results /\ n < MAX_RESULTS_DISPLAY cfg
             /\ MAX_TOTAL_RESPONSE_LENGTH cfg
                < length h + length (concat (firstn (S n) texts)))
            \/ (t1 = [] /\ (n = length results \/ n = MAX_RESULTS_DISPLAY cfg)))).
Proof.
  intros exact phrase keyword results h texts footer.
  unfold search_response, format_prioritized_results. fold exact phrase keyword results h.
  assert (Hfoot : forall body : str,
            (if 0 <? files_error st then body ++ unreadable_footer (files_error st) else body)
            = body ++ footer)
    by (intros body; unfold footer; destruct (0 <? files_error st);
        [reflexivity | rewrite app_nil_r; reflexivity]).
  rewrite Hfoot. clear Hfoot.
  destruct results as [|r rs] eqn:Eres.
  - split; [|intros Hne; congruence]. intros _.
    change (concat (h :: [no_results_text])) with (h ++ no_results_text ++ []).
    rewrite app_nil_r, <- app_assoc. reflexivity.
  - split; [discriminate|]. intros _.
    destruct (render_entries cfg 1 0 (length h) (r :: rs)) as [parts d] eqn:Er.
    destruct (render_entries_exact cfg _ _ _ _ _ _ Er)
      as [k [tail [Hp [Hd [Hk [Hdisp [Hfits Hend]]]]]]].
    simpl in Hd. subst d. specialize (Hdisp ltac:(lia)). unfold texts.
    exists k, (concat tail). split; [|split; [exact Hk|]; split; [lia|]; split; [exact Hfits|]].
    + rewrite Hp. change (concat (h :: ?l)) with (h ++ concat l).
      rewrite !concat_app, <- !app_assoc. f_equal. f_equal. f_equal.
      destruct (k <? length (r :: rs)); cbn [concat]; rewrite ?app_nil_r; reflexivity.
    + split.
      * rewrite length_app. destruct k as [|k].
        -- simpl. lia.
        -- specialize (Hfits (S k) ltac:(lia)). lia.
      * destruct Hend as [[Ht [Hlt [Hdl Hover]]] | [Ht Hor]].
        -- left. rewrite Ht. cbn [concat]. rewrite app_nil_r. repeat split; lia.
        -- right. rewrite Ht. split; [reflexivity | lia].
Qed.

(** C2 fails as stated: for a query of 50000 letters and an empty tree the
    header alone (which quotes the query) already exceeds
    [MAX_TOTAL_RESPONSE_LENGTH = 50000]. *)
Lemma response_exceeds_cap :
  MAX_TOTAL_RESPONSE_LENGTH default_config
  < length (fst (search_files default_config [] (repeat 97%N 50000))).
Proof. apply Nat.ltb_lt. vm_compute. reflexivity. Qed.

(** ** Claim C9 *)

Lemma space_not_word (c : char) : is_space c = true -> is_word c = false.
Proof.
  intros H. apply not_true_is_false. intros Hw.
  unfold is_space, is_word, in_range in *.
  repeat match goal with
         | H : _ || _ = true |- _ => apply orb_true_iff in H; destruct H
         | H : _ && _ = true |- _ => apply andb_true_iff in H; destruct H
         | H : (_ <=? _)%N = true |- _ => apply N.leb_le in H
         | H : (_ =? _)%N = true |- _ => apply N.eqb_eq in H
         end; lia.
Qed.

Lemma lstrip_prefix_spaces (s : str) :
  exists a, s = a ++ lstrip s /\ forallb is_space a = true.
Proof.
  induction s as [|c s [a [Ha Hsp]]]; simpl; [exists []; split; reflexivity|].
  destruct (is_space c) eqn:Ec.
  - exists (c :: a). simpl. rewrite Ec, Hsp. split; [f_equal; exact Ha | reflexivity].
  - exists []. split; reflexivity.
Qed.

Lemma py_strip_spaces (s : str) :
  exists a b, s = a ++ py_strip s ++ b /\ forallb is_space a = true /\ forallb is_space b = true.
Proof.
  destruct (lstrip_prefix_spaces s) as [a [Ha Hsa]].
  destruct (lstrip_prefix_spaces (rev (lstrip s))) as [b [Hb Hsb]].
  exists a, (rev b). unfold py_strip, rev'. rewrite <- !rev_alt.
  split; [|split; [exact Hsa|]].
  - rewrite Ha at 1. f_equal.
    transitivity (rev (rev (lstrip s))); [symmetry; apply rev_involutive|].
    rewrite Hb at 1. rewrite rev_app_distr. reflexivity.
  - apply forallb_forall. intros x Hx. apply in_rev in Hx.
    exact (proj1 (forallb_forall _ _) Hsb x Hx).
Qed.

Lemma runs_skip_prefix (p : char -> bool) (a s : str) :
  forallb (fun c => negb (p c)) a = true -> runs_aux p [] (a ++ s) = runs_aux p [] s.
Proof.
  induction a as [|c a IH]; intros H; simpl; [reflexivity|].
  simpl in H. apply andb_true_iff in H as [Hc H].
  destruct (p c); [discriminate|]. apply IH, H.
Qed.

Lemma runs_skip_suffix (p : char -> bool) (cur s b : str) :
  forallb (fun c => negb (p c)) b = true -> runs_aux p cur (s ++ b) = runs_aux p cur s.
Proof.
  intros Hb. revert cur; induction s as [|c s IH]; intros cur; simpl.
  - destruct b as [|c b]; [reflexivity|]. simpl in Hb. apply andb_true_iff in Hb as [Hc Hb].
    simpl. destruct (p c); [discriminate|].
    rewrite <- (app_nil_r b), runs_skip_prefix by exact Hb.
    destruct cur; reflexivity.
  - destruct (p c); [apply IH|]. destruct cur; [apply IH|]. rewrite IH. reflexivity.
Qed.

Lemma findall_words_strip (q : str) : findall_words (py_strip q) = findall_words q.
Proof.
  destruct (py_strip_spaces q) as [a [b [Hq [Ha Hb]]]].
  assert (Hns : forall l, forallb is_space l = true -> forallb (fun c => negb (is_word c)) l = true).
  { intros l Hl. apply forallb_forall. intros x Hx.
    rewrite (space_not_word x (proj1 (forallb_forall _ _) Hl x Hx)). reflexivity. }
  unfold findall_words, runs. rewrite Hq at 2.
  rewrite runs_skip_prefix by (apply Hns, Ha).
  rewrite runs_skip_suffix by (apply Hns, Hb). reflexivity.
Qed.

Lemma safe_files_inv (cfg : config) (keywords : list str) (root : str)
    (files : list file_entry) (acc : nat * list Safe.result) (Q : Safe.result -> Prop) :
  Forall Q (snd acc) ->
  (forall f text sz, In f files -> fcontent f = Some text -> fsize f = Some sz ->
     all_keywords_in keywords (py_lower text) = true ->
     Q {| Safe.s_path := path_join root (fname f);
          Safe.s_filename := basename (path_join root (fname f));
          Safe.s_snippet := Safe.get_snippet (py_lower text) keywords;
          Safe.s_size := sz |}) ->
  Forall Q (snd (fold_left (fun acc f => Safe.process_file cfg keywords root f acc) files acc)).
Proof.
  revert acc; induction files as [|f files IH]; intros [n rs] Hacc Hnew; simpl; [exact Hacc|].
  apply IH; [|intros f' text sz Hin; apply Hnew; right; exact Hin].
  unfold Safe.process_file.
  destruct (ext_selected cfg (fname f)); simpl; [|exact Hacc].
  destruct (fcontent f) as [text|] eqn:Ec; [|exact Hacc].
  destruct (all_keywords_in keywords (py_lower text)) eqn:Ek; [|exact Hacc].
  destruct (fsize f) as [sz|] eqn:Es; [|exact Hacc].
  simpl. apply Forall_app. split; [exact Hacc|].
  constructor; [|constructor]. apply (Hnew f text sz); [left; reflexivity | assumption..].
Qed.

(** C9 (as the code does it): every file the plain variant reports was
    read and its lower-cased content contains every token of the plain
    variant's own tokenizer; for an ASCII query those tokens are the tiered
    variant's tokens without the 2-character ones (so the two all-keywords
    tests coincide exactly on queries without 2-character tokens). *)
Theorem safe_reports_contain_own_tokens (cfg : config) (w : walk) (q : str) :
  match Safe.search_files cfg w q with
  | Some results =>
      Forall (fun r => exists root files f text,
                 In (root, files) w /\ In f files /\ fcontent f = Some text
                 /\ Safe.s_path r = path_join root (fname f)
                 /\ all_keywords_in (Safe.keywords_of q) (py_lower text) = true) results
  | None => True
  end
  /\ (ascii_str q = true ->
      Safe.keywords_of q = filter (fun t => 2 <? length t) (keywords_of (py_strip q))).
Proof.
  split.
  - unfold Safe.search_files. destruct (Safe.keywords_of q) as [|k ks] eqn:Ek; [exact I|].
    unfold Safe.scan_walk. rewrite <- Ek.
    set (Q := fun r : Safe.result => exists root files f text,
                 In (root, files) w /\ In f files /\ fcontent f = Some text
                 /\ Safe.s_path r = path_join root (fname f)
                 /\ all_keywords_in (Safe.keywords_of q) (py_lower text) = true).
    assert (Hgen : forall w' acc, incl w' w -> Forall Q (snd acc) ->
              Forall Q (snd (fold_left (fun acc '(root, files) =>
                 fold_left (fun acc f => Safe.process_file cfg (Safe.keywords_of q) root f acc)
                   files acc) w' acc))).
    { induction w' as [|[root files] w' IH]; intros acc Hincl Hacc; simpl; [exact Hacc|].
      apply IH; [intros x Hx; apply Hincl; right; exact Hx|].
      apply safe_files_inv; [exact Hacc|].
      intros f text sz Hin Hc Hs Hk. exists root, files, f, text.
      repeat split; try assumption. apply Hincl. left. reflexivity. }
    apply Hgen; [intros x Hx; exact Hx | constructor].
  - intros _. unfold Safe.keywords_of, keywords_of. rewrite findall_words_strip.
    induction (findall_words q) as [|t ts IH]; simpl; [reflexivity|].
    assert (Hl : length (py_lower t) = length t) by apply length_map.
    destruct (2 <? length t) eqn:E2.
    + replace (1 <? length t) with true by (symmetry; apply Nat.ltb_lt; apply Nat.ltb_lt in E2; lia).
      simpl. rewrite Hl, E2, IH. reflexivity.
    + destruct (1 <? length t); simpl; [|exact IH].
      rewrite Hl, E2. exact IH.
Qed.

(** C9 fails as stated: for the query ["ab cde"] the plain variant keeps
    only ["cde"] and reports a file whose content is ["cde"], while the
    tiered variant's all-keywords test on its tokens ["ab"; "cde"] fails
    and the tiered search records no match for it. *)
Lemma safe_variant_not_subset :
  let w : walk := [(lit "/d", [{| fname := lit "a.txt"; fsize := Some 3%N;
                                  fcontent := Some (lit "cde") |}])] in
  (exists results, Safe.search_files default_config w (lit "ab cde") = Some results
                   /\ map Safe.s_path results = [lit "/d/a.txt"])
  /\ keywords_of (py_strip (lit "ab cde")) = [lit "ab"; lit "cde"]
  /\ all_keywords_in (keywords_of (py_strip (lit "ab cde"))) (py_lower (lit "cde")) = false
  /\ (exists st, snd (search_files default_config w (lit "ab cde")) = Some st
                 /\ total_records st = 0).
Proof.
  intros w. split; [eexists; split; [reflexivity | vm_compute; reflexivity]|].
  split; [vm_compute; reflexivity|]. split; [vm_compute; reflexivity|].
  eexists. split; [reflexivity | vm_compute; reflexivity].
Qed.

(** * Further properties of the code *)

(** ** [check_phrase_proximity] never raises *)

Lemma lookup_pos_in (wp : positions) (k : str) :
  In k (map fst wp) -> exists ps, lookup_pos wp k = Some ps.
Proof.
  induction wp as [|[k' ps] wp IH]; simpl; [intros []|].
  intros [-> | Hin].
  - exists ps. replace (str_eqb k k) with true by (symmetry; apply str_eqb_eq; reflexivity).
    reflexivity.
  - destruct (str_eqb k k'); [exists ps; reflexivity | apply IH, Hin].
Qed.

Lemma all_near_total (wp : positions) (pos1 : nat) (kws : list str) :
  incl kws (map fst wp) -> exists b, all_near wp pos1 kws = Some b.
Proof.
  induction kws as [|k kws IH]; intros Hinc; simpl; [exists true; reflexivity|].
  destruct (lookup_pos_in wp k (Hinc k (or_introl eq_refl))) as [ps Hps].
  rewrite Hps. destruct (existsb (near pos1) ps); [|exists false; reflexivity].
  apply IH. intros x Hx. apply Hinc. right. exact Hx.
Qed.

Lemma any_anchor_total (wp : positions) (others : list str) (firsts : list nat) :
  incl others (map fst wp) -> exists b, any_anchor wp others firsts = Some b.
Proof.
  intros Hinc. induction firsts as [|p firsts IH]; simpl; [exists false; reflexivity|].
  destruct (all_near_total wp p others Hinc) as [[|] Hb]; rewrite Hb;
    [exists true; reflexivity | exact IH].
Qed.

Lemma check_phrase_proximity_some (content : str) (keywords : list str) :
  exists b, check_phrase_proximity content keywords = Some b.
Proof.
  unfold check_phrase_proximity.
  destruct (length keywords <? 2); [exists false; reflexivity|].
  set (wp := collect_positions keywords 0 (py_split content) []).
  destruct (Nat.eqb_spec (length wp) (length keywords)) as [Heq|]; [|exists false; reflexivity].
  simpl.
  destruct (collect_positions_keys keywords 0 (py_split content) [] (NoDup_nil _)
              (fun x (H : In x []) => match H with end)) as [Hnd Hinc].
  fold wp in Hnd, Hinc.
  assert (Hall : incl keywords (map fst wp)).
  { apply NoDup_length_incl; [exact Hnd | rewrite length_map, Heq; lia | exact Hinc]. }
  destruct keywords as [|k0 others]; [exists false; reflexivity|].
  destruct (lookup_pos_in wp k0 (Hall k0 (or_introl eq_refl))) as [firsts Hf].
  rewrite Hf. apply any_anchor_total. intros x Hx. apply Hall. right. exact Hx.
Qed.

(** [check_phrase_proximity] always returns: the lookups
    [word_positions[keyword]] are only reached when every keyword is a key,
    so the [KeyError] of the dict never occurs. *)
Theorem check_phrase_proximity_total (content : str) (keywords : list str) :
  exists b, check_phrase_proximity content keywords = Some b.
Proof. apply check_phrase_proximity_some. Qed.

(** ** The tier chain *)

Lemma classify_total (cfg : config) (original_query : str) (keywords : list str)
    (content : str) :
  classify cfg original_query keywords content <> None.
Proof.
  unfold classify.
  destruct (py_in _ _); [discriminate|].
  destruct (1 <? length keywords); [|destruct (all_keywords_in _ _); discriminate].
  destruct (check_phrase_proximity_some (py_lower content) keywords) as [[|] Hb]; rewrite Hb;
    [discriminate | destruct (all_keywords_in _ _); discriminate].
Qed.

Lemma classify_cases (cfg : config) (original_query : str) (keywords : list str)
    (content : str) (t : tier) (rel : nat) (snip : str) :
  classify cfg original_query keywords content = Some (Some (t, rel, snip)) ->
  (t = Exact /\ py_in (py_lower original_query) (py_lower content) = true
   /\ rel = 1000 + py_count (py_lower original_query) (py_lower content) * 100
   /\ snip = get_snippet_for_phrase cfg content original_query)
  \/ (t = Phrase /\ rel = 500 + sum_counts keywords (py_lower content) * 10
      /\ snip = get_snippet_for_keywords cfg content keywords)
  \/ (t = Keyword /\ all_keywords_in keywords (py_lower content) = true
      /\ rel = sum_counts keywords (py_lower content) * 5
      /\ snip = get_snippet_for_keywords cfg content keywords).
Proof.
  unfold classify. intros H.
  destruct (py_in _ _) eqn:Ein.
  - injection H as <- <- <-. left. repeat split; assumption.
  - assert (Hkw : (if all_keywords_in keywords (py_lower content)
                   then Some (Some (Keyword, sum_counts keywords (py_lower content) * 5,
                                    get_snippet_for_keywords cfg content keywords))
                   else Some None) = Some (Some (t, rel, snip)) ->
                  t = Keyword /\ all_keywords_in keywords (py_lower content) = true
                  /\ rel = sum_counts keywords (py_lower content) * 5
                  /\ snip = get_snippet_for_keywords cfg content keywords).
    { destruct (all_keywords_in _ _) eqn:Ea; intros E; [|discriminate].
      injection E as <- <- <-. repeat split. }
    destruct (1 <? length keywords); [|right; right; apply Hkw, H].
    destruct (check_phrase_proximity (py_lower content) keywords) as [[|]|];
      [| right; right; apply Hkw, H | discriminate].
    injection H as <- <- <-. right. left. repeat split.
Qed.

(** The record [process_file] adds, if any. *)
Lemma process_file_cases (cfg : config) (original_query : str) (keywords : list str)
    (root : str) (f : file_entry) (st : scan_state) :
  let st' := process_file cfg original_query keywords root f st in
  (exact_matches st' = exact_matches st /\ phrase_matches st' = phrase_matches st
   /\ keyword_matches st' = keyword_matches st)
  \/ exists sz text t rel snip,
       fsize f = Some sz /\ fcontent f = Some text
       /\ classify cfg original_query keywords (take_N (MAX_FILE_SIZE cfg) text)
          = Some (Some (t, rel, snip))
       /\ st' = add_record {| r_path := path_join root (fname f);
                              r_filename := basename (path_join root (fname f));
                              r_snippet := snip; r_size := sz; r_relevance := rel;
                              r_match_type := t |}
                  (bump_searched (path_join root (fname f))
                     (set_visited (path_join root (fname f)) st)).
Proof.
  unfold process_file.
  destruct (ext_selected cfg (fname f)); simpl; [|left; repeat split].
  destruct (fsize f) as [sz|] eqn:Es; [|left; repeat split].
  destruct (MAX_FILE_SIZE cfg <? sz)%N; [left; repeat split|].
  destruct (sz =? 0)%N; [left; repeat split|].
  destruct (fcontent f) as [text|] eqn:Ec; [|left; repeat split].
  destruct (classify cfg original_query keywords _) as [[[[t rel] snip]|]|] eqn:Ecl;
    [|left; repeat split | left; repeat split].
  right. exists sz, text, t, rel, snip. repeat split; assumption.
Qed.

(** The per-file [except] clause fires only on I/O: a file whose size and
    content can be read never increments [files_error], whatever it
    contains. *)
Theorem readable_file_no_error (cfg : config) (original_query : str) (keywords : list str)
    (root : str) (f : file_entry) (st : scan_state) (sz : N) (text : str) :
  fsize f = Some sz -> fcontent f = Some text ->
  files_error (process_file cfg original_query keywords root f st) = files_error st.
Proof.
  intros Hs Hc. unfold process_file. rewrite Hs, Hc.
  destruct (ext_selected cfg (fname f)); simpl; [|reflexivity].
  destruct (MAX_FILE_SIZE cfg <? sz)%N; [reflexivity|].
  destruct (sz =? 0)%N; [reflexivity|].
  pose proof (classify_total cfg original_query keywords (take_N (MAX_FILE_SIZE cfg) text)).
  destruct (classify _ _ _ _) as [[[[t rel] snip]|]|]; [reflexivity | reflexivity | congruence].
Qed.

Lemma readable_file_no_error_witness :
  let f := {| fname := lit "a.txt"; fsize := Some 5%N; fcontent := Some (lit "a b-c") |} in
  fsize f = Some 5%N /\ fcontent f = Some (lit "a b-c")
  /\ files_error (process_file default_config (lit "b c") [lit "bc"; lit "b"] (lit "/d") f
                   init_state) = 0.
Proof.
  intros f. split; [reflexivity|]. split; [reflexivity|].
  apply (readable_file_no_error default_config (lit "b c") [lit "bc"; lit "b"] (lit "/d") f
           init_state 5%N (lit "a b-c")); reflexivity.
Defined.

(** ** Scans: invariants over the records *)

Lemma add_record_all (R : match_record -> Prop) (r : match_record) (st : scan_state) :
  Forall R (all_records st) -> R r -> Forall R (all_records (add_record r st)).
Proof.
  unfold all_records. intros H Hr. rewrite !Forall_app in H. destruct H as [He [Hp Hk]].
  unfold add_record. destruct (r_match_type r); simpl; rewrite ?app_nil_r, !Forall_app;
    repeat split; try assumption; repeat constructor; assumption.
Qed.

Lemma scan_walk_records (cfg : config) (original_query : str) (keywords : list str)
    (w : walk) (st : scan_state) (R : match_record -> Prop) :
  (forall root files f sz text t rel snip,
      In (root, files) w -> In f files -> fsize f = Some sz -> fcontent f = Some text ->
      classify cfg original_query keywords (take_N (MAX_FILE_SIZE cfg) text)
      = Some (Some (t, rel, snip)) ->
      R {| r_path := path_join root (fname f); r_filename := basename (path_join root (fname f));
           r_snippet := snip; r_size := sz; r_relevance := rel; r_match_type := t |}) ->
  Forall R (all_records st) ->
  Forall R (all_records (scan_walk cfg original_query keywords w st)).
Proof.
  intros Hnew.
  assert (Hfile : forall root files f st, In (root, files) w -> In f files ->
            Forall R (all_records st) ->
            Forall R (all_records (process_file cfg original_query keywords root f st))).
  { intros root files f st0 Hw Hf Hst.
    destruct (process_file_cases cfg original_query keywords root f st0) as
      [[He [Hp Hk]] | [sz [text [t [rel [snip [Hs [Hc [Hcl ->]]]]]]]]].
    - unfold all_records in *. rewrite He, Hp, Hk. exact Hst.
    - apply add_record_all; [exact Hst|]. eapply Hnew; eassumption. }
  assert (Hfiles : forall root files, In (root, files) w -> forall pre st,
            (forall f, In f pre -> In f files) -> Forall R (all_records st) ->
            Forall R (all_records (scan_files cfg original_query keywords root pre st))).
  { intros root files Hw pre. induction pre as [|f pre IH]; intros st0 Hincl Hst; simpl;
      [exact Hst|].
    destruct (MAX_FILES_TO_SEARCH cfg <=? files_searched st0); [exact Hst|].
    apply IH; [intros g Hg; apply Hincl; right; exact Hg|].
    apply (Hfile root files); [exact Hw | apply Hincl; left; reflexivity | exact Hst]. }
  assert (Hgen : forall w', incl w' w -> forall st, Forall R (all_records st) ->
            Forall R (all_records (scan_walk cfg original_query keywords w' st))).
  { induction w' as [|[root files] w' IH]; intros Hincl st0 Hst; simpl; [exact Hst|].
    assert (Hw : In (root, files) w) by (apply Hincl; left; reflexivity).
    pose proof (Hfiles root files Hw files st0 (fun f H => H) Hst) as H1.
    destruct (MAX_FILES_TO_SEARCH cfg <=? _); [exact H1|].
    apply IH; [intros x Hx; apply Hincl; right; exact Hx | exact H1]. }
  apply Hgen. intros x Hx. exact Hx.
Qed.

Lemma search_files_scan (cfg : config) (w : walk) (q : str) (st : scan_state) :
  snd (search_files cfg w q) = Some st ->
  keywords_of (py_strip q) <> []
  /\ st = scan_walk cfg (py_strip q) (keywords_of (py_strip q)) w init_state.
Proof.
  unfold search_files. destruct (keywords_of (py_strip q)) as [|k ks]; simpl; [discriminate|].
  intros H. injection H as <-. split; [discriminate | reflexivity].
Qed.

(** ** Counters *)

Lemma process_file_counts (cfg : config) (original_query : str) (keywords : list str)
    (root : str) (f : file_entry) (st : scan_state) :
  let st' := process_file cfg original_query keywords root f st in
  total_records st' + files_searched st <= total_records st + files_searched st'
  /\ files_searched st <= files_searched st'
  /\ files_searched st' + files_skipped st' <= S (files_searched st + files_skipped st)
  /\ length (visited st') = S (length (visited st)).
Proof.
  unfold process_file, total_records.
  destruct (ext_selected cfg (fname f)); simpl;
    [|rewrite length_app; simpl; repeat split; lia].
  destruct (fsize f) as [sz|]; simpl; [|rewrite length_app; simpl; repeat split; lia].
  destruct (MAX_FILE_SIZE cfg <? sz)%N; simpl; [rewrite length_app; simpl; repeat split; lia|].
  destruct (sz =? 0)%N; simpl; [rewrite length_app; simpl; repeat split; lia|].
  destruct (fcontent f) as [text|]; simpl; [|rewrite length_app; simpl; repeat split; lia].
  destruct (classify cfg original_query keywords _) as [[[[t rel] snip]|]|]; simpl;
    [destruct t; simpl; rewrite ?length_app; simpl; repeat split; lia
    | rewrite length_app; simpl; repeat split; lia
    | rewrite length_app; simpl; repeat split; lia].
Qed.

(** Every match comes from a file counted in [files_searched], and every
    file counted as searched or skipped is a distinct visited file: after
    the scan of [search_files], the number of matches is at most
    [files_searched], and [files_searched + files_skipped] is at most the
    number of files the walk reached. *)
Theorem matches_within_searched (cfg : config) (w : walk) (q : str) (st : scan_state) :
  snd (search_files cfg w q) = Some st ->
  total_records st <= files_searched st
  /\ files_searched st + files_skipped st <= length (visited st).
Proof.
  intros Hs. destruct (search_files_scan cfg w q st Hs) as [_ ->].
  set (P := fun st : scan_state => total_records st <= files_searched st
                                   /\ files_searched st + files_skipped st <= length (visited st)).
  assert (Hfile : forall root f st, P st ->
            P (process_file cfg (py_strip q) (keywords_of (py_strip q)) root f st)).
  { intros root f st0 [H1 H2].
    destruct (process_file_counts cfg (py_strip q) (keywords_of (py_strip q)) root f st0)
      as [A [B [C D]]].
    unfold P. rewrite D. split; lia. }
  assert (Hfiles : forall root files st, P st ->
            P (scan_files cfg (py_strip q) (keywords_of (py_strip q)) root files st)).
  { intros root files. induction files as [|f files IH]; intros st0 H; simpl; [exact H|].
    destruct (MAX_FILES_TO_SEARCH cfg <=? files_searched st0); [exact H|].
    apply IH, Hfile, H. }
  assert (Hwalk : forall w st, P st ->
            P (scan_walk cfg (py_strip q) (keywords_of (py_strip q)) w st)).
  { induction w0 as [|[root files] w0 IH]; intros st0 H; simpl; [exact H|].
    destruct (MAX_FILES_TO_SEARCH cfg <=? _); [apply Hfiles, H|]. apply IH, Hfiles, H. }
  apply Hwalk. unfold P, total_records. simpl. lia.
Qed.

Lemma matches_within_searched_witness :
  let w : walk := [(lit "/d", [eligible_file "a.txt"; eligible_file "b.log";
                               {| fname := lit "c.txt"; fsize := Some 1%N;
                                  fcontent := Some (lit "z") |}])] in
  exists st, snd (search_files default_config w (lit "ab")) = Some st
             /\ total_records st <= files_searched st
             /\ files_searched st + files_skipped st <= length (visited st).
Proof.
  intros w. exists (scan_walk default_config (py_strip (lit "ab"))
                     (keywords_of (py_strip (lit "ab"))) w init_state).
  assert (Hs : snd (search_files default_config w (lit "ab"))
               = Some (scan_walk default_config (py_strip (lit "ab"))
                         (keywords_of (py_strip (lit "ab"))) w init_state)) by reflexivity.
  split; [exact Hs|]. exact (matches_within_searched default_config w (lit "ab") _ Hs).
Defined.

(** ** Relevance by tier *)

Lemma occ_count_pos (sub a b : str) : 1 <= occ_count sub (a ++ sub ++ b).
Proof.
  induction a as [|c a IH]; simpl.
  - assert (H : is_prefix sub (sub ++ b) = true) by (apply is_prefix_spec; exists b; reflexivity).
    destruct (sub ++ b) as [|c s]; simpl; rewrite H; lia.
  - lia.
Qed.

Lemma py_count_pos (sub s : str) : py_in sub s = true -> 1 <= py_count sub s.
Proof.
  intros H. apply py_in_spec in H as [a [b ->]]. unfold py_count.
  destruct sub as [|x sub'] eqn:Es; [lia|]. rewrite <- Es.
  apply count_nonoverlap_pos; [subst; discriminate|].
  pose proof (occ_count_pos sub a b). lia.
Qed.

Lemma sum_counts_ge (keywords : list str) (content_lower : str) :
  all_keywords_in keywords content_lower = true -> length keywords <= sum_counts keywords content_lower.
Proof.
  induction keywords as [|k ks IH]; simpl; [lia|].
  intros H. apply andb_true_iff in H as [Hk Hks].
  pose proof (py_count_pos k content_lower Hk). specialize (IH Hks). unfold sum_counts in *.
  simpl. lia.
Qed.

Lemma tier_records (cfg : config) (st : scan_state) (R : match_record -> Prop) :
  buckets_typed st -> Forall R (all_records st) ->
  Forall (fun r => r_match_type r = Exact /\ R r) (exact_matches st)
  /\ Forall (fun r => r_match_type r = Phrase /\ R r) (phrase_matches st)
  /\ Forall (fun r => r_match_type r = Keyword /\ R r) (keyword_matches st).
Proof.
  intros [He [Hp Hk]] H. unfold all_records in H. rewrite !Forall_app in H.
  destruct H as [He' [Hp' Hk']].
  repeat split; apply Forall_forall; intros r Hr; split;
    solve [exact (proj1 (Forall_forall _ _) He r Hr) | exact (proj1 (Forall_forall _ _) Hp r Hr)
          | exact (proj1 (Forall_forall _ _) Hk r Hr) | exact (proj1 (Forall_forall _ _) He' r Hr)
          | exact (proj1 (Forall_forall _ _) Hp' r Hr) | exact (proj1 (Forall_forall _ _) Hk' r Hr)].
Qed.

(** The relevance of every match lies in its tier's range: at least 1100
    for an exact match (the query occurs at least once), at least 500 for a
    phrase match, and at least 5 per keyword for a keyword match (each
    keyword occurs at least once).  Keyword scores are not bounded above,
    so the tiers are ordered by bucket, not by score. *)
Theorem relevance_by_tier (cfg : config) (w : walk) (q : str) (st : scan_state) :
  snd (search_files cfg w q) = Some st ->
  Forall (fun r => 1100 <= r_relevance r) (exact_matches st)
  /\ Forall (fun r => 500 <= r_relevance r) (phrase_matches st)
  /\ Forall (fun r => 5 * length (keywords_of (py_strip q)) <= r_relevance r) (keyword_matches st)
  /\ 1 <= length (keywords_of (py_strip q)).
Proof.
  intros Hs. destruct (search_files_scan cfg w q st Hs) as [Hne ->].
  set (kws := keywords_of (py_strip q)) in *.
  set (R := fun r => match r_match_type r with
                     | Exact => 1100 <= r_relevance r
                     | Phrase => 500 <= r_relevance r
                     | Keyword => 5 * length kws <= r_relevance r
                     end).
  assert (HR : Forall R (all_records (scan_walk cfg (py_strip q) kws w init_state))).
  { apply scan_walk_records; [|constructor].
    intros root files f sz text t rel snip _ _ _ _ Hcl. unfold R. simpl.
    destruct (classify_cases _ _ _ _ _ _ _ Hcl) as
      [[-> [Hin [-> _]]] | [[-> [-> _]] | [-> [Hall [-> _]]]]].
    - pose proof (py_count_pos _ _ Hin). lia.
    - lia.
    - pose proof (sum_counts_ge _ _ Hall). lia. }
  destruct (tier_records cfg _ R (scan_walk_typed cfg (py_strip q) kws w init_state
                                    ltac:(repeat constructor)) HR) as [He [Hp Hk]].
  split; [|split; [|split]].
  - eapply Forall_impl; [|exact He]. intros r [Ht Hr]. unfold R in Hr. rewrite Ht in Hr. exact Hr.
  - eapply Forall_impl; [|exact Hp]. intros r [Ht Hr]. unfold R in Hr. rewrite Ht in Hr. exact Hr.
  - eapply Forall_impl; [|exact Hk]. intros r [Ht Hr]. unfold R in Hr. rewrite Ht in Hr. exact Hr.
  - destruct kws; [congruence | simpl; lia].
Qed.

Lemma relevance_by_tier_witness :
  let w : walk := [(lit "/d", [eligible_file "a.txt";
                               {| fname := lit "b.txt"; fsize := Some 5%N;
                                  fcontent := Some (lit "cd ab") |}])] in
  exists st, snd (search_files default_config w (lit "ab cd")) = Some st
             /\ Forall (fun r => 1100 <= r_relevance r) (exact_matches st)
             /\ Forall (fun r => 500 <= r_relevance r) (phrase_matches st).
Proof.
  intros w. exists (scan_walk default_config (py_strip (lit "ab cd"))
                     (keywords_of (py_strip (lit "ab cd"))) w init_state).
  assert (Hs : snd (search_files default_config w (lit "ab cd"))
               = Some (scan_walk default_config (py_strip (lit "ab cd"))
                         (keywords_of (py_strip (lit "ab cd"))) w init_state)) by reflexivity.
  split; [exact Hs|].
  destruct (relevance_by_tier default_config w (lit "ab cd") _ Hs) as [He [Hp _]].
  split; [exact He | exact Hp].
Defined.

(** ** The tiers are nested *)

Lemma runs_aux_substrings (p : char -> bool) (cur s : str) :
  Forall (fun x => exists a b, rev cur ++ s = a ++ x ++ b) (runs_aux p cur s).
Proof.
  revert cur; induction s as [|c s IH]; intros cur; simpl.
  - destruct cur as [|c0 cur']; [constructor|].
    constructor; [|constructor]. exists [], []. unfold rev'. rewrite <- rev_alt.
    rewrite !app_nil_r. reflexivity.
  - destruct (p c).
    + specialize (IH (c :: cur)). simpl in IH. rewrite <- app_assoc in IH. exact IH.
    + assert (Hsh : forall x, (exists a b, s = a ++ x ++ b) ->
                    exists a b, rev cur ++ c :: s = a ++ x ++ b).
      { intros x [a [b ->]]. exists (rev cur ++ c :: a), b. rewrite <- app_assoc. reflexivity. }
      destruct cur as [|c0 cur'].
      * eapply Forall_impl; [|apply (IH [])]. simpl. intros x Hx. apply Hsh, Hx.
      * constructor.
        -- exists [], (c :: s). unfold rev'. rewrite <- rev_alt. reflexivity.
        -- eapply Forall_impl; [|apply (IH [])]. simpl. intros x Hx. apply Hsh, Hx.
Qed.

(** For ASCII query and content, every keyword is a piece of the
    lower-cased query, so a file that passes the exact test (the
    lower-cased query occurs in the lower-cased content) also passes the
    all-keywords test. *)
Theorem exact_implies_all_keywords (original_query content : str) :
  ascii_str original_query = true -> ascii_str content = true ->
  py_in (py_lower original_query) (py_lower content) = true ->
  all_keywords_in (keywords_of original_query) (py_lower content) = true.
Proof.
  intros _ _ H. apply py_in_spec in H as [a [b Hc]].
  unfold all_keywords_in, keywords_of. apply forallb_forall. intros kw Hkw.
  apply in_map_iff in Hkw as [word [<- Hw]]. apply filter_In in Hw as [Hw _].
  pose proof (proj1 (Forall_forall _ _) (runs_aux_substrings is_word [] original_query) word Hw)
    as [a' [b' Hq]].
  simpl in Hq. apply py_in_spec. rewrite Hc, Hq, !py_lower_app.
  exists (a ++ py_lower a'), (py_lower b' ++ b). rewrite <- !app_assoc. reflexivity.
Qed.

Lemma exact_implies_all_keywords_witness :
  py_in (py_lower (lit "Quick, brown fox")) (py_lower (lit "the QUICK, BROWN FOX ran"))
  = true
  /\ all_keywords_in (keywords_of (lit "Quick, brown fox"))
       (py_lower (lit "the QUICK, BROWN FOX ran")) = true.
Proof.
  assert (H : py_in (py_lower (lit "Quick, brown fox"))
                (py_lower (lit "the QUICK, BROWN FOX ran")) = true) by (vm_compute; reflexivity).
  split; [exact H|].
  apply (exact_implies_all_keywords _ _); [vm_compute; reflexivity | vm_compute; reflexivity | exact H].
Defined.

(** ** File names *)

Lemma py_find_from_no_slash (i : nat) (l : str) :
  no_slash l -> py_find_from i slash l = None.
Proof.
  revert i; induction l as [|c l IH]; intros i Hns; [reflexivity|].
  change (py_find_from i slash (c :: l))
    with (if (47 =? c)%N && true then Some i else py_find_from (S i) slash l).
  replace (47 =? c)%N with false
    by (symmetry; apply N.eqb_neq; intros <-; apply Hns; left; reflexivity).
  apply IH. intros H. apply Hns. right. exact H.
Qed.

Lemma py_find_from_first_slash (i : nat) (l m : str) :
  no_slash l -> py_find_from i slash (l ++ 47%N :: m) = Some (i + length l).
Proof.
  revert i; induction l as [|c l IH]; intros i Hns.
  - rewrite Nat.add_0_r. reflexivity.
  - change (py_find_from i slash ((c :: l) ++ 47%N :: m))
      with (if (47 =? c)%N && true then Some i else py_find_from (S i) slash (l ++ 47%N :: m)).
    replace (47 =? c)%N with false
      by (symmetry; apply N.eqb_neq; intros <-; apply Hns; left; reflexivity).
    simpl andb. cbv iota. rewrite IH; [f_equal; simpl; lia|]. intros H. apply Hns. right. exact H.
Qed.

Lemma no_slash_rev (l : str) : no_slash l -> no_slash (rev l).
Proof. intros H Hin. apply H. apply in_rev. exact Hin. Qed.

(** [os.path.basename(os.path.join(root, name))] is [name] for a name
    without a separator. *)
Lemma basename_path_join (root name : str) :
  no_slash name -> basename (path_join root name) = name.
Proof.
  intros Hns.
  assert (Hsplit : forall p t, rev p = rev name ++ 47%N :: t -> basename p = name).
  { intros p t Ht. unfold basename, rev'. rewrite <- !rev_alt. unfold py_find.
    rewrite Ht, py_find_from_first_slash by (apply no_slash_rev, Hns). simpl.
    rewrite firstn_app, length_rev, Nat.sub_diag, firstn_all2, app_nil_r
      by (rewrite length_rev; lia).
    apply rev_involutive. }
  destruct root as [|c root'].
  - unfold path_join, basename, rev'. rewrite <- !rev_alt. unfold py_find.
    rewrite py_find_from_no_slash by (apply no_slash_rev, Hns). apply rev_involutive.
  - unfold path_join. destruct (py_endswith (c :: root') slash) eqn:Ee.
    + unfold py_endswith, rev' in Ee. rewrite <- !rev_alt in Ee.
      apply is_prefix_spec in Ee as [t Ht]. apply (Hsplit _ t).
      rewrite rev_app_distr, Ht. reflexivity.
    + apply (Hsplit _ (rev (c :: root'))). rewrite !rev_app_distr, <- app_assoc. reflexivity.
Qed.

(** The [filename] of every match is the name [os.walk] listed for the
    file ([os.path.basename] of the joined path gives it back), and its
    [path] is that name joined to the directory it was listed in. *)
Theorem match_filename_is_listed_name (cfg : config) (w : walk) (q : str) (st : scan_state) :
  snd (search_files cfg w q) = Some st ->
  (forall root files f, In (root, files) w -> In f files -> no_slash (fname f)) ->
  Forall (fun r => exists root files f,
              In (root, files) w /\ In f files
              /\ r_path r = path_join root (fname f) /\ r_filename r = fname f)
         (all_records st).
Proof.
  intros Hs Hns. destruct (search_files_scan cfg w q st Hs) as [_ ->].
  apply scan_walk_records; [|constructor].
  intros root files f sz text t rel snip Hw Hf _ _ _. exists root, files, f.
  repeat split; try assumption. simpl. apply basename_path_join, (Hns root files f Hw Hf).
Qed.

Lemma match_filename_is_listed_name_witness :
  let w : walk := [(lit "/d/", [eligible_file "a.txt"]); (lit "", [eligible_file "b.txt"])] in
  exists st, snd (search_files default_config w (lit "ab")) = Some st
             /\ (forall root files f, In (root, files) w -> In f files -> no_slash (fname f))
             /\ Forall (fun r => exists root files f,
                           In (root, files) w /\ In f files
                           /\ r_path r = path_join root (fname f) /\ r_filename r = fname f)
                       (all_records st)
             /\ map r_filename (all_records st) = [lit "a.txt"; lit "b.txt"].
Proof.
  intros w. exists (scan_walk default_config (py_strip (lit "ab"))
                     (keywords_of (py_strip (lit "ab"))) w init_state).
  assert (Hs : snd (search_files default_config w (lit "ab"))
               = Some (scan_walk default_config (py_strip (lit "ab"))
                         (keywords_of (py_strip (lit "ab"))) w init_state)) by reflexivity.
  assert (Hns : forall root files f, In (root, files) w -> In f files -> no_slash (fname f)).
  { intros root files f Hw Hf.
    destruct Hw as [Hw|[Hw|[]]]; injection Hw as <- <-; destruct Hf as [<-|[]];
      unfold no_slash; simpl; intuition congruence. }
  split; [exact Hs|]. split; [exact Hns|].
  split; [exact (match_filename_is_listed_name default_config w (lit "ab") _ Hs Hns)|].
  vm_compute. reflexivity.
Defined.

(** ** Snippets *)

Lemma Forall_firstn_str (P : char -> Prop) (n : nat) (s : str) :
  Forall P s -> Forall P (firstn n s).
Proof.
  intros H. rewrite <- (firstn_skipn n s) in H. apply Forall_app in H. exact (proj1 H).
Qed.

Lemma py_join_chars (P : char -> Prop) (sep : str) (l : list str) :
  Forall P sep -> Forall (Forall P) l -> Forall P (py_join sep l).
Proof.
  intros Hsep. induction l as [|x l IH]; intros Hl; [constructor|].
  inversion Hl as [|x' l' Hx Hl']; subst.
  destruct l as [|y l]; [exact Hx|].
  change (py_join sep (x :: y :: l)) with (x ++ sep ++ py_join sep (y :: l)).
  apply Forall_app. split; [exact Hx|]. apply Forall_app. split; [exact Hsep | apply IH, Hl'].
Qed.

Lemma py_split_one_line (s : str) : Forall (Forall one_line_char) (py_split s).
Proof.
  unfold py_split, runs.
  eapply Forall_impl; [|apply (runs_aux_all _ [] s eq_refl)].
  intros r Hr. apply Forall_forall. intros c Hc. left.
  pose proof (proj1 (forallb_forall _ _) Hr c Hc) as H. simpl in H.
  destruct (is_space c); [discriminate | reflexivity].
Qed.

Lemma ellipsis_one_line : Forall one_line_char ellipsis.
Proof. repeat constructor; left; reflexivity. Qed.

Lemma py_in_find (sub s : str) : py_in sub s = true -> exists pos, py_find sub s = Some pos.
Proof. unfold py_in. destruct (py_find sub s) as [pos|]; [exists pos; reflexivity | discriminate]. Qed.

Lemma get_snippet_for_phrase_found (cfg : config) (content phrase : str) :
  py_in (py_lower phrase) (py_lower content) = true ->
  length (get_snippet_for_phrase cfg content phrase) <= MAX_SNIPPET_LENGTH cfg
  /\ Forall one_line_char (get_snippet_for_phrase cfg content phrase).
Proof.
  intros H. destruct (py_in_find _ _ H) as [pos Hpos].
  unfold get_snippet_for_phrase. rewrite Hpos. cbv zeta. split.
  - rewrite length_firstn. lia.
  - apply Forall_firstn_str.
    assert (Hj : Forall one_line_char
                   (py_join (lit " ") (py_split (slice (pos - 50)
                      (Nat.min (length content) (pos + length phrase + 50)) content)))).
    { apply py_join_chars; [repeat constructor; right; reflexivity | apply py_split_one_line]. }
    destruct (0 <? pos - 50); destruct (_ <? length content);
      rewrite ?Forall_app; repeat split; try exact Hj; apply ellipsis_one_line.
Qed.

Lemma get_snippet_for_phrase_len (cfg : config) (content phrase : str) :
  length (get_snippet_for_phrase cfg content phrase) <= MAX_SNIPPET_LENGTH cfg + 3.
Proof.
  unfold get_snippet_for_phrase. destruct (py_find _ _) as [pos|].
  - cbv zeta. rewrite length_firstn. lia.
  - rewrite length_app, length_firstn. change (length ellipsis) with 3. lia.
Qed.

Lemma keyword_context_len (cfg : config) (content : str) (keywords : list str) (c : str) :
  keyword_context cfg content keywords = Some c -> length c <= MAX_SNIPPET_LENGTH cfg.
Proof.
  induction keywords as [|k ks IH]; simpl; [discriminate|].
  destruct (py_find k (py_lower content)) as [pos|]; [|exact IH].
  intros H. injection H as <-. rewrite length_firstn. lia.
Qed.

Lemma keyword_context_found (cfg : config) (content : str) (k : str) (ks : list str) :
  py_in k (py_lower content) = true -> keyword_context cfg content (k :: ks) <> None.
Proof.
  intros H. destruct (py_in_find _ _ H) as [pos Hpos]. simpl. rewrite Hpos. discriminate.
Qed.

Lemma py_slice_to_nonneg (n : nat) (s : str) :
  py_slice_to (Z.of_nat n) s = firstn n s.
Proof.
  unfold py_slice_to. replace (0 <=? Z.of_nat n)%Z with true by (symmetry; apply Z.leb_le; lia).
  rewrite Nat2Z.id. reflexivity.
Qed.

Lemma get_snippet_for_keywords_len (cfg : config) (content : str) (keywords : list str) :
  3 <= MAX_SNIPPET_LENGTH cfg ->
  length (get_snippet_for_keywords cfg content keywords) <= MAX_SNIPPET_LENGTH cfg + 3
  /\ (keywords <> [] ->
      all_keywords_in keywords (py_lower content) = true ->
      length (get_snippet_for_keywords cfg content keywords) <= MAX_SNIPPET_LENGTH cfg).
Proof.
  intros H3. unfold get_snippet_for_keywords.
  destruct (best_sentence_loop keywords (re_split is_sentence_sep content) [] 0) as [|b bs] eqn:Eb.
  - destruct (keyword_context cfg content keywords) as [c|] eqn:Ek.
    + pose proof (keyword_context_len _ _ _ _ Ek). split; [lia | intros; lia].
    + rewrite length_app, length_firstn. change (length ellipsis) with 3. split; [lia|].
      intros Hne Hall. destruct keywords as [|k ks]; [congruence|].
      simpl in Hall. apply andb_true_iff in Hall as [Hk _].
      exfalso. exact (keyword_context_found cfg content k ks Hk Ek).
  - destruct (MAX_SNIPPET_LENGTH cfg <? length (b :: bs)) eqn:Elt.
    + apply Nat.ltb_lt in Elt.
      replace (Z.of_nat (MAX_SNIPPET_LENGTH cfg) - 3)%Z
        with (Z.of_nat (MAX_SNIPPET_LENGTH cfg - 3)) by lia.
      rewrite py_slice_to_nonneg, length_app, length_firstn.
      change (length ellipsis) with 3. split; [lia | intros; lia].
    + apply Nat.ltb_ge in Elt. split; [lia | intros; lia].
Qed.

(** An exact match's snippet has at most [MAX_SNIPPET_LENGTH] characters.
    When [MAX_SNIPPET_LENGTH >= 3] (so that [MAX_SNIPPET_LENGTH-3] is not a
    negative slice stop), every snippet has at most [MAX_SNIPPET_LENGTH + 3]
    characters and a keyword match's at most [MAX_SNIPPET_LENGTH].  Only a
    phrase match whose keywords never occur verbatim (the proximity test
    compares words cleaned of punctuation) can fall back to the
    [content[:MAX_SNIPPET_LENGTH] + "..."] form. *)
Theorem snippet_lengths (cfg : config) (w : walk) (q : str) (st : scan_state) :
  snd (search_files cfg w q) = Some st ->
  Forall (fun r => length (r_snippet r) <= MAX_SNIPPET_LENGTH cfg) (exact_matches st)
  /\ (3 <= MAX_SNIPPET_LENGTH cfg ->
      Forall (fun r => length (r_snippet r) <= MAX_SNIPPET_LENGTH cfg + 3) (all_records st)
      /\ Forall (fun r => length (r_snippet r) <= MAX_SNIPPET_LENGTH cfg) (keyword_matches st)).
Proof.
  intros Hs. destruct (search_files_scan cfg w q st Hs) as [Hne ->].
  set (kws := keywords_of (py_strip q)) in *.
  set (R := fun r => (r_match_type r = Exact -> length (r_snippet r) <= MAX_SNIPPET_LENGTH cfg)
                     /\ (3 <= MAX_SNIPPET_LENGTH cfg ->
                         length (r_snippet r) <= MAX_SNIPPET_LENGTH cfg + 3
                         /\ (r_match_type r = Keyword ->
                             length (r_snippet r) <= MAX_SNIPPET_LENGTH cfg))).
  assert (HR : Forall R (all_records (scan_walk cfg (py_strip q) kws w init_state))).
  { apply scan_walk_records; [|constructor].
    intros root files f sz text t rel snip _ _ _ _ Hcl. unfold R. simpl.
    destruct (classify_cases _ _ _ _ _ _ _ Hcl) as
      [[-> [Hin [_ ->]]] | [[-> [_ ->]] | [-> [Hall [_ ->]]]]].
    - pose proof (get_snippet_for_phrase_found cfg _ _ Hin) as [Hl _].
      split; [intros _; exact Hl|]. intros _. split; [lia | discriminate].
    - split; [discriminate|]. intros H3.
      pose proof (get_snippet_for_keywords_len cfg (take_N (MAX_FILE_SIZE cfg) text) kws H3)
        as [Hl _].
      split; [exact Hl | discriminate].
    - split; [discriminate|]. intros H3.
      pose proof (get_snippet_for_keywords_len cfg (take_N (MAX_FILE_SIZE cfg) text) kws H3)
        as [Hl Hl'].
      split; [exact Hl|]. intros _. exact (Hl' Hne Hall). }
  destruct (tier_records cfg _ R (scan_walk_typed cfg (py_strip q) kws w init_state
                                    ltac:(repeat constructor)) HR) as [He [_ Hk]].
  split; [|intros H3; split].
  - eapply Forall_impl; [|exact He]. intros r [Ht [Hr _]]. exact (Hr Ht).
  - eapply Forall_impl; [|exact HR]. intros r [_ Hr]. exact (proj1 (Hr H3)).
  - eapply Forall_impl; [|exact Hk]. intros r [Ht [_ Hr]]. exact (proj2 (Hr H3) Ht).
Qed.

Lemma snippet_lengths_witness :
  let w : walk := [(lit "/d", [{| fname := lit "a.txt"; fsize := Some 7%N;
                                  fcontent := Some (lit "x ab cd") |};
                               {| fname := lit "b.txt"; fsize := Some 5%N;
                                  fcontent := Some (lit "cd ab") |}])] in
  exists st, snd (search_files default_config w (lit "ab cd")) = Some st
             /\ Forall (fun r => length (r_snippet r) <= 200) (keyword_matches st).
Proof.
  intros w. exists (scan_walk default_config (py_strip (lit "ab cd"))
                     (keywords_of (py_strip (lit "ab cd"))) w init_state).
  assert (Hs : snd (search_files default_config w (lit "ab cd"))
               = Some (scan_walk default_config (py_strip (lit "ab cd"))
                         (keywords_of (py_strip (lit "ab cd"))) w init_state)) by reflexivity.
  split; [exact Hs|].
  destruct (snippet_lengths default_config w (lit "ab cd") _ Hs) as [_ Hk].
  apply Hk. simpl. lia.
Defined.

(** The snippet of an exact match stays on one line: the only whitespace
    it contains is the plain space that [' '.join(snippet.split())]
    inserts. *)
Theorem exact_snippet_one_line (cfg : config) (w : walk) (q : str) (st : scan_state) :
  snd (search_files cfg w q) = Some st ->
  Forall (fun r => Forall one_line_char (r_snippet r)) (exact_matches st).
Proof.
  intros Hs. destruct (search_files_scan cfg w q st Hs) as [_ ->].
  set (kws := keywords_of (py_strip q)).
  set (R := fun r => r_match_type r = Exact -> Forall one_line_char (r_snippet r)).
  assert (HR : Forall R (all_records (scan_walk cfg (py_strip q) kws w init_state))).
  { apply scan_walk_records; [|constructor].
    intros root files f sz text t rel snip _ _ _ _ Hcl. unfold R. simpl.
    destruct (classify_cases _ _ _ _ _ _ _ Hcl) as
      [[-> [Hin [_ ->]]] | [[-> _] | [-> _]]]; [|discriminate..].
    intros _. exact (proj2 (get_snippet_for_phrase_found cfg _ _ Hin)). }
  destruct (tier_records cfg _ R (scan_walk_typed cfg (py_strip q) kws w init_state
                                    ltac:(repeat constructor)) HR) as [He _].
  eapply Forall_impl; [|exact He]. intros r [Ht Hr]. exact (Hr Ht).
Qed.

Lemma exact_snippet_one_line_witness :
  let w : walk := [(lit "/d", [{| fname := lit "a.txt"; fsize := Some 12%N;
                                  fcontent := Some (lit "x" ++ nl ++ lit "ab" ++ [9%N] ++ lit "cd"
                                                   ++ nl ++ lit " ab") |}])] in
  exists st, snd (search_files default_config w (lit "ab")) = Some st
             /\ Forall (fun r => Forall one_line_char (r_snippet r)) (exact_matches st)
             /\ map r_snippet (exact_matches st) = [lit "x ab cd ab"].
Proof.
  intros w. exists (scan_walk default_config (py_strip (lit "ab"))
                     (keywords_of (py_strip (lit "ab"))) w init_state).
  assert (Hs : snd (search_files default_config w (lit "ab"))
               = Some (scan_walk default_config (py_strip (lit "ab"))
                         (keywords_of (py_strip (lit "ab"))) w init_state)) by reflexivity.
  split; [exact Hs|]. split; [exact (exact_snippet_one_line default_config w (lit "ab") _ Hs)|].
  vm_compute. reflexivity.
Defined.

(** ** Which results the report lists *)

Lemma render_entries_prefix (cfg : config) (i d cur : nat) (results : list match_record)
    (parts : list str) (d' : nat) :
  render_entries cfg i d cur results = (parts, d') ->
  exists k tail,
    parts = numbered_texts i (firstn k results) ++ tail
    /\ d' = d + k /\ k <= length results
    /\ (d <= MAX_RESULTS_DISPLAY cfg -> d' <= MAX_RESULTS_DISPLAY cfg)
    /\ (tail = [] \/ tail = [truncation_marker]).
Proof.
  revert i d cur parts d'.
  induction results as [|r rs IH]; intros i d cur parts d' Hr; cbn [render_entries] in Hr.
  - injection Hr as <- <-. exists 0, []. simpl. repeat split; try lia. left; reflexivity.
  - destruct (MAX_RESULTS_DISPLAY cfg <=? d) eqn:Ecap.
    + injection Hr as <- <-. exists 0, []. simpl. repeat split; try lia. left; reflexivity.
    + apply Nat.leb_gt in Ecap. cbv zeta in Hr.
      destruct (MAX_TOTAL_RESPONSE_LENGTH cfg <? cur + length (result_text i r)).
      * injection Hr as <- <-. exists 0, [truncation_marker]. simpl.
        repeat split; try lia. right; reflexivity.
      * destruct (render_entries cfg (S i) (S d) (cur + length (result_text i r)) rs)
          as [parts' d''] eqn:Er.
        injection Hr as <- <-.
        destruct (IH _ _ _ _ _ Er) as [k [tail [Hp [Hd [Hk [Hb Ht]]]]]].
        exists (S k), tail. rewrite Hp. simpl. repeat split; try lia; try assumption.
Qed.

(** The report lists the first [n] results of the combined list, in
    order, numbered from 1, with [n] at most [MAX_RESULTS_DISPLAY]; after
    them come at most the truncation marker and, when [n] is short of the
    number of results, the note counting the [len(results) - n] others.
    With no results it is the header and the no-results block. *)
Theorem report_lists_leading_results (cfg : config) (results : list match_record)
    (files_searched files_skipped : nat) (query : str) (exact phrase keyword : list match_record) :
  let h := header files_searched files_skipped query (length exact) (length phrase)
             (length keyword) (length results) in
  let response := format_prioritized_results cfg results files_searched files_skipped query
                    exact phrase keyword in
  (results = [] -> response = h ++ no_results_text)
  /\ (results <> [] ->
      exists n t1,
        response = h ++ concat (numbered_texts 1 (firstn n results)) ++ t1
                     ++ (if n <? length results
                         then remaining_summary (length results - n) (0 <? length exact)
                         else [])
        /\ n <= MAX_RESULTS_DISPLAY cfg /\ n <= length results
        /\ (t1 = [] \/ t1 = truncation_marker)).
Proof.
  intros h response. unfold response, format_prioritized_results. fold h. split.
  - intros ->. cbn [concat]. rewrite app_nil_r. reflexivity.
  - intros Hne. destruct results as [|r rs]; [congruence|].
    destruct (render_entries cfg 1 0 (length h) (r :: rs)) as [parts d] eqn:Er.
    destruct (render_entries_prefix cfg 1 0 (length h) (r :: rs) parts d Er)
      as [k [tail [Hp [Hd [Hk [Hb Ht]]]]]].
    simpl in Hd. subst d.
    exists k, (concat tail). split; [|split; [apply Hb; lia | split; [exact Hk|]]].
    + change (concat (h :: ?l)) with (h ++ concat l). rewrite Hp, !concat_app.
      rewrite <- !app_assoc. f_equal. f_equal. f_equal.
      destruct (k <? length (r :: rs)); cbn [concat]; rewrite ?app_nil_r; reflexivity.
    + destruct Ht as [-> | ->]; [left | right; cbn [concat]; rewrite app_nil_r]; reflexivity.
Qed.

(** ** The message pane *)

Lemma newline_count_cons (c : char) (s : str) :
  newline_count (c :: s) = (if (c =? 10)%N then 1 else 0) + newline_count s.
Proof.
  unfold newline_count. simpl. destruct (N.eq_dec c 10) as [->|Hne]; simpl; [reflexivity|].
  replace (c =? 10)%N with false by (symmetry; apply N.eqb_neq; exact Hne). reflexivity.
Qed.

Lemma newline_count_app (a b : str) :
  newline_count (a ++ b) = newline_count a + newline_count b.
Proof. unfold newline_count. apply count_occ_app. Qed.

Lemma drop_line_count (s : str) : newline_count (drop_line s) = newline_count s - 1.
Proof.
  induction s as [|c s IH]; [reflexivity|].
  simpl drop_line. rewrite newline_count_cons. destruct (c =? 10)%N; lia.
Qed.

Lemma drop_lines_count (k : nat) (s : str) : newline_count (drop_lines k s) = newline_count s - k.
Proof.
  revert s; induction k as [|k IH]; intros s; simpl; [lia|].
  rewrite IH, drop_line_count. lia.
Qed.

Lemma drop_line_app (a b : str) :
  1 <= newline_count a -> drop_line (a ++ b) = drop_line a ++ b.
Proof.
  induction a as [|c a IH]; [unfold newline_count; simpl; lia|].
  rewrite newline_count_cons. simpl. destruct (c =? 10)%N; [reflexivity|].
  intros H. apply IH. lia.
Qed.

Lemma drop_lines_app (k : nat) (a b : str) :
  k <= newline_count a -> drop_lines k (a ++ b) = drop_lines k a ++ b.
Proof.
  revert a; induction k as [|k IH]; intros a H; simpl; [reflexivity|].
  rewrite drop_line_app by lia. apply IH. rewrite drop_line_count. lia.
Qed.

Lemma add_message_text_lines (timestamp message text : str) :
  newline_count (add_message_text timestamp message text) <= 1000.
Proof.
  unfold add_message_text. cbv zeta.
  destruct (1000 <? S (newline_count (text ++ message_entry timestamp
                                               (truncate_for_display message)))) eqn:E.
  - apply Nat.ltb_lt in E. rewrite drop_lines_count. lia.
  - apply Nat.ltb_ge in E. lia.
Qed.

Lemma drop_line_whole (s : str) :
  1 <= newline_count s ->
  exists p, s = p ++ nl ++ drop_line s /\ newline_count p = 0.
Proof.
  induction s as [|c s IH]; [unfold newline_count; simpl; lia|].
  rewrite newline_count_cons. simpl drop_line.
  destruct (c =? 10)%N eqn:Ec.
  - intros _. apply N.eqb_eq in Ec. subst c. exists []. split; reflexivity.
  - intros H. destruct (IH ltac:(lia)) as [p [Hp Hc]]. exists (c :: p). split.
    + simpl. f_equal. exact Hp.
    + rewrite newline_count_cons, Ec. exact Hc.
Qed.

Lemma drop_lines_whole (k : nat) (s : str) :
  k <= newline_count s ->
  exists p, s = p ++ drop_lines k s /\ newline_count p = k
            /\ (p = [] \/ exists p', p = p' ++ nl).
Proof.
  revert s; induction k as [|k IH]; intros s Hk; simpl.
  - exists []. split; [reflexivity|]. split; [reflexivity | left; reflexivity].
  - destruct (drop_line_whole s ltac:(lia)) as [p1 [Hs1 Hc1]].
    assert (Hk' : k <= newline_count (drop_line s)) by (rewrite drop_line_count; lia).
    destruct (IH (drop_line s) Hk') as [p2 [Hs2 [Hc2 Hend]]].
    exists (p1 ++ nl ++ p2). split; [|split].
    + rewrite Hs1 at 1. rewrite Hs2 at 1. rewrite !app_assoc. reflexivity.
    + rewrite !newline_count_app. unfold newline_count at 2. simpl. lia.
    + right. destruct Hend as [-> | [p' ->]].
      * exists p1. rewrite app_nil_r. reflexivity.
      * exists (p1 ++ nl ++ p'). rewrite !app_assoc. reflexivity.
Qed.

(** [add_message] (radar_chatbot.py) keeps the pane to at most 1000
    newline-terminated lines: the new text is the old text followed by the
    entry ["[time] message\n"], with whole lines removed from the front
    (the removed part is empty or ends with a newline, and holds exactly
    the lines beyond the last 1000), and an entry of at most 1000 lines is
    always kept in full. *)
Theorem add_message_keeps_last_lines (timestamp message text : str) :
  let entry := message_entry timestamp (truncate_for_display message) in
  let text' := add_message_text timestamp message text in
  newline_count text' <= 1000
  /\ (exists dropped, text ++ entry = dropped ++ text'
                      /\ (dropped = [] \/ exists d, dropped = d ++ nl)
                      /\ newline_count dropped = newline_count (text ++ entry) - 1000)
  /\ (newline_count entry <= 1000 -> exists kept, text' = kept ++ entry).
Proof.
  intros entry text'. split; [apply add_message_text_lines|].
  unfold text', add_message_text. fold entry. cbv zeta.
  destruct (1000 <? S (newline_count (text ++ entry))) eqn:E.
  - apply Nat.ltb_lt in E.
    destruct (drop_lines_whole (S (newline_count (text ++ entry)) - 1000 - 1) (text ++ entry)
                ltac:(lia)) as [p [Hp [Hc Hend]]].
    split; [exists p; split; [exact Hp | split; [exact Hend | lia]]|].
    rewrite newline_count_app in E.
    intros He. rewrite drop_lines_app by (rewrite newline_count_app; lia).
    eexists. reflexivity.
  - apply Nat.ltb_ge in E.
    split; [exists []; split; [reflexivity | split; [left; reflexivity | simpl; unfold newline_count at 1; simpl; lia]]|].
    intros _. exists text. reflexivity.
Qed.

(** ** [check_directory] and the scan that follows it *)

Lemma count_files_inner (sel : list str) (root : str) (files : list file_entry) (acc : nat) :
  fold_left (fun file_count f => if ext_matches sel (fname f) then S file_count else file_count)
            files acc
  = acc + length (filter (fun p : str * file_entry => ext_matches sel (fname (snd p)))
                         (map (tag_path root) files)).
Proof.
  revert acc; induction files as [|f files IH]; intros acc; simpl; [lia|].
  rewrite IH. destruct (ext_matches sel (fname f)); simpl; lia.
Qed.

Lemma count_files_filter (sel : list str) (w : walk) :
  count_files sel w
  = length (filter (fun p : str * file_entry => ext_matches sel (fname (snd p))) (walk_files w)).
Proof.
  unfold count_files.
  assert (H : forall acc,
    fold_left (fun file_count '(root, files) =>
                 fold_left (fun file_count f =>
                              if ext_matches sel (fname f) then S file_count else file_count)
                           files file_count) w acc
    = acc + length (filter (fun p : str * file_entry => ext_matches sel (fname (snd p)))
                           (walk_files w))).
  { induction w as [|[root files] w IH]; intros acc; simpl; [lia|].
    rewrite IH, (count_files_inner sel root files acc).
    change (walk_files w) with (flat_map (fun '(root, files) => map (tag_path root) files) w).
    rewrite filter_app, length_app. lia. }
  rewrite H. reflexivity.
Qed.

Lemma filter_length_mono {A : Type} (f g : A -> bool) (l : list A) :
  (forall x, f x = true -> g x = true) -> length (filter f l) <= length (filter g l).
Proof.
  intros Hfg. induction l as [|x l IH]; simpl; [lia|].
  destruct (f x) eqn:Ef.
  - rewrite (Hfg x Ef). simpl. lia.
  - destruct (g x); simpl; lia.
Qed.

Lemma search_files_within_eligible (cfg : config) (w : walk) (q : str) (s : scan_state) :
  snd (search_files cfg w q) = Some s ->
  files_searched s <= length (filter (eligible_tagged cfg) (walk_files w)).
Proof.
  intros H. destruct (search_files_scan cfg w q s H) as [_ ->].
  destruct (scan_walk_trace cfg (py_strip q) (keywords_of (py_strip q)) w init_state
              ltac:(simpl; lia)) as [pre [rest [Heq [_ [_ [Hs _]]]]]].
  rewrite Hs, Heq, filter_app, length_app. simpl. lia.
Qed.

Lemma eligible_within_count (cfg : config) (w : walk) :
  length (filter (eligible_tagged cfg) (walk_files w))
  <= count_files (selected_extensions cfg) w.
Proof.
  rewrite count_files_filter. apply filter_length_mono.
  intros [p f]. unfold eligible_tagged, eligible. simpl.
  intros H. apply andb_true_iff in H. destruct H as [H _]. exact H.
Qed.

Lemma check_directory_frame (env : fs) (st : app) :
  let st' := snd (check_directory env st) in
  dir_var st' = dir_var st /\ input_var st' = input_var st
  /\ file_type_vars st' = file_type_vars st /\ file_extensions st' = file_extensions st
  /\ searching st' = searching st /\ messages_text st' = messages_text st
  /\ search_thread st' = search_thread st.
Proof.
  unfold check_directory. destruct (directory_check env st); simpl; repeat split.
Qed.

Lemma safe_check_directory_frame (env : fs) (st : app) :
  let st' := snd (safe_check_directory env st) in
  dir_var st' = dir_var st /\ input_var st' = input_var st
  /\ file_type_vars st' = file_type_vars st /\ file_extensions st' = file_extensions st
  /\ searching st' = searching st /\ messages_text st' = messages_text st
  /\ search_thread st' = search_thread st.
Proof.
  unfold safe_check_directory. destruct (directory_check env st); simpl; repeat split.
Qed.

Lemma directory_check_ready (env : fs) (st : app) :
  (py_strip (dir_var st) <> [] /\ path_exists env (py_strip (dir_var st)) = true
   /\ selected_of (file_type_vars st) <> [])
  -> directory_check env st
     = DirectoryReady (py_strip (dir_var st))
         (count_files (selected_of (file_type_vars st)) (os_walk env (py_strip (dir_var st)))).
Proof.
  intros [Hd [He Hs]]. unfold directory_check.
  destruct (py_strip (dir_var st)) as [|c d]; [congruence|]. rewrite He. simpl.
  destruct (selected_of (file_type_vars st)); [congruence|]. reflexivity.
Qed.

Lemma directory_check_not_ready (env : fs) (st : app) :
  ~ (py_strip (dir_var st) <> [] /\ path_exists env (py_strip (dir_var st)) = true
     /\ selected_of (file_type_vars st) <> [])
  -> directory_check env st = NoDirectory \/ directory_check env st = DirectoryMissing
     \/ directory_check env st = NoFileType.
Proof.
  intros Hn. unfold directory_check.
  destruct (py_strip (dir_var st)) as [|c d]; [left; reflexivity|].
  destruct (path_exists env (c :: d)) eqn:He; simpl; [|right; left; reflexivity].
  destruct (selected_of (file_type_vars st)) eqn:Es; [right; right; reflexivity|].
  exfalso. apply Hn. repeat split; congruence.
Qed.

Lemma directory_ready_dec (env : fs) (st : app) :
  {py_strip (dir_var st) <> [] /\ path_exists env (py_strip (dir_var st)) = true
   /\ selected_of (file_type_vars st) <> []}
  + {~ (py_strip (dir_var st) <> [] /\ path_exists env (py_strip (dir_var st)) = true
        /\ selected_of (file_type_vars st) <> [])}.
Proof.
  destruct (py_strip (dir_var st)) as [|c d]; [right; tauto|].
  destruct (path_exists env (c :: d)); [|right; intuition discriminate].
  destruct (selected_of (file_type_vars st)); [right; tauto|].
  left; repeat split; discriminate.
Qed.

(** [check_directory] (radar_chatbot.py) returns True exactly when the
    stripped directory is non-empty, exists, and some file type is ticked.
    Then [base_dir] becomes that directory and the status reports the number
    of files of the walk with a ticked extension; any later [search_files]
    on [base_dir] with the same ticks counts at most that many files as
    searched.  When it returns False, [base_dir] is unchanged. *)
Theorem check_directory_validates (env : fs) (st : app) :
  let ok := fst (check_directory env st) in
  let st' := snd (check_directory env st) in
  (ok = true <-> py_strip (dir_var st) <> [] /\ path_exists env (py_strip (dir_var st)) = true
                 /\ selected_of (file_type_vars st) <> [])
  /\ (ok = false -> base_dir st' = base_dir st)
  /\ (ok = true ->
      let n := count_files (selected_of (file_type_vars st)) (os_walk env (py_strip (dir_var st))) in
      base_dir st' = py_strip (dir_var st)
      /\ status_var st' = lit "Ready - Found " ++ dec n ++ lit " searchable files"
      /\ forall query s,
           snd (search_files (config_of st') (os_walk env (base_dir st')) query) = Some s ->
           files_searched s <= n).
Proof.
  intros ok st'.
  destruct (directory_ready_dec env st) as [Hr | Hn].
  - pose proof (directory_check_ready env st Hr) as Hd.
    unfold ok, st', check_directory. rewrite Hd. cbn [fst snd].
    split; [tauto|]. split; [discriminate|]. intros _. cbv zeta.
    split; [reflexivity|]. split; [reflexivity|].
    intros query s Hs. eapply Nat.le_trans; [apply (search_files_within_eligible _ _ _ _ Hs)|].
    exact (eligible_within_count (config_of _) _).
  - pose proof (directory_check_not_ready env st Hn) as Hd.
    unfold ok, st', check_directory.
    destruct Hd as [Hd | [Hd | Hd]]; rewrite Hd; cbn [fst snd];
      (split; [split; [discriminate | tauto]|]; split; [intros _; reflexivity | discriminate]).
Qed.

Lemma safe_process_file_count (cfg : config) (keywords : list str) (root : str)
    (f : file_entry) (acc : nat * list Safe.result) :
  fst (Safe.process_file cfg keywords root f acc)
  = if ext_selected cfg (fname f) then S (fst acc) else fst acc.
Proof.
  destruct acc as [n results]. unfold Safe.process_file.
  destruct (ext_selected cfg (fname f)); simpl; [|reflexivity].
  destruct (fcontent f); [|reflexivity].
  destruct (all_keywords_in keywords (py_lower s)); [|reflexivity].
  destruct (fsize f); reflexivity.
Qed.

Lemma safe_scan_walk_count (cfg : config) (keywords : list str) (w : walk) :
  fst (Safe.scan_walk cfg keywords w) = count_files (selected_extensions cfg) w.
Proof.
  unfold Safe.scan_walk, count_files.
  assert (Hin : forall root files acc,
    fst (fold_left (fun acc f => Safe.process_file cfg keywords root f acc) files acc)
    = fold_left (fun file_count f =>
                   if ext_matches (selected_extensions cfg) (fname f)
                   then S file_count else file_count) files (fst acc)).
  { intros root files. induction files as [|f files IH]; intros acc; [reflexivity|].
    simpl. rewrite IH, safe_process_file_count. reflexivity. }
  assert (Hout : forall acc,
    fst (fold_left (fun acc '(root, files) =>
                      fold_left (fun acc f => Safe.process_file cfg keywords root f acc)
                                files acc) w acc)
    = fold_left (fun file_count '(root, files) =>
                   fold_left (fun file_count f =>
                                if ext_matches (selected_extensions cfg) (fname f)
                                then S file_count else file_count) files file_count)
                w (fst acc)).
  { induction w as [|[root files] w IH]; intros acc; [reflexivity|].
    simpl. rewrite IH, Hin. reflexivity. }
  rewrite Hout. reflexivity.
Qed.

(** [check_directory] of safe_chatbot.py returns True exactly when the
    stripped directory is non-empty, exists, and some file type is ticked;
    then [base_dir] becomes that directory, the status reports the count
    [N] of files with a ticked extension, and the [files_searched] count of
    a later [search_files] loop on [base_dir] with the same ticks is exactly
    [N]: the plain variant has no file cap and counts unreadable files too. *)
Theorem safe_check_directory_count (env : fs) (st : app) :
  let ok := fst (safe_check_directory env st) in
  let st' := snd (safe_check_directory env st) in
  (ok = true <-> py_strip (dir_var st) <> [] /\ path_exists env (py_strip (dir_var st)) = true
                 /\ selected_of (file_type_vars st) <> [])
  /\ (ok = false -> base_dir st' = base_dir st)
  /\ (ok = true ->
      let n := count_files (selected_of (file_type_vars st)) (os_walk env (py_strip (dir_var st))) in
      base_dir st' = py_strip (dir_var st)
      /\ status_var st' = [9989%N] ++ lit " Ready - Found " ++ dec n ++ lit " searchable files"
      /\ forall keywords,
           fst (Safe.scan_walk (config_of st') keywords (os_walk env (base_dir st'))) = n).
Proof.
  intros ok st'.
  destruct (directory_ready_dec env st) as [Hr | Hn].
  - pose proof (directory_check_ready env st Hr) as Hd.
    unfold ok, st', safe_check_directory. rewrite Hd. cbn [fst snd].
    split; [tauto|]. split; [discriminate|]. intros _. cbv zeta.
    split; [reflexivity|]. split; [reflexivity|].
    intros keywords. exact (safe_scan_walk_count (config_of _) keywords _).
  - pose proof (directory_check_not_ready env st Hn) as Hd.
    unfold ok, st', safe_check_directory.
    destruct Hd as [Hd | [Hd | Hd]]; rewrite Hd; cbn [fst snd];
      (split; [split; [discriminate | tauto]|]; split; [intros _; reflexivity | discriminate]).
Qed.

(** ** [send_message] *)

Lemma directory_check_same (env : fs) (st1 st2 : app) :
  dir_var st1 = dir_var st2 -> file_type_vars st1 = file_type_vars st2 ->
  directory_check env st1 = directory_check env st2.
Proof. intros Hd Hf. unfold directory_check. rewrite Hd, Hf. reflexivity. Qed.

(** [send_message] (radar_chatbot.py) does nothing while a search runs or
    when the stripped input is empty.  Otherwise it always clears the input
    box, and it starts a background search exactly when [check_directory]
    succeeds: the search runs on the stripped query over the stripped
    directory, which has become [base_dir].  When the check fails no search
    starts and the query is gone from the input box. *)
Theorem send_message_starts_search (env : fs) (timestamp : str) (st : app) :
  let st' := send_message env timestamp st in
  (searching st = true -> st' = st)
  /\ (py_strip (input_var st) = [] -> st' = st)
  /\ (searching st = false -> (searching st' = true <-> search_can_start env st))
  /\ (search_can_start env st ->
      search_thread st' = Some (py_strip (input_var st))
      /\ base_dir st' = py_strip (dir_var st) /\ input_var st' = [])
  /\ (searching st = false -> py_strip (input_var st) <> [] -> ~ search_can_start env st ->
      searching st' = false /\ search_thread st' = search_thread st
      /\ base_dir st' = base_dir st /\ input_var st' = []).
Proof.
  intros st'. unfold st', send_message, search_can_start.
  destruct (searching st) eqn:Es.
  { repeat split; intros; try reflexivity; intuition congruence. }
  destruct (py_strip (input_var st)) as [|c q] eqn:Eq.
  { repeat split; intros; try reflexivity; intuition congruence. }
  set (st1 := add_message timestamp (lit "You: " ++ c :: q) (set_input [] st)).
  assert (Hdc : directory_check env st1 = directory_check env st)
    by (apply directory_check_same; reflexivity).
  unfold check_directory. rewrite Hdc.
  destruct (directory_ready_dec env st) as [Hr | Hn].
  - rewrite (directory_check_ready env st Hr). cbn [negb].
    destruct Hr as [Hr1 [Hr2 Hr3]].
    unfold st1; cbn [searching search_thread base_dir input_var add_message set_messages_text
                     set_status set_input set_base_dir set_searching start_search];
    repeat split; intros; repeat split; try discriminate; try reflexivity; try assumption;
    try congruence;
    tauto.
  - destruct (directory_check_not_ready env st Hn) as [Hd | [Hd | Hd]]; rewrite Hd; cbn [negb];
      unfold st1; cbn [searching search_thread base_dir input_var add_message set_messages_text
                       set_status set_input set_searching];
      repeat split; intros; repeat split; try discriminate; try reflexivity; try congruence;
      exfalso; apply Hn; tauto.
Qed.

(** ** The window invariant *)

Lemma window_ok_frame (st st' : app) :
  messages_text st' = messages_text st -> searching st' = searching st ->
  search_thread st' = search_thread st -> window_ok st -> window_ok st'.
Proof. intros Hm Hs Ht. unfold window_ok. rewrite Hm, Hs, Ht. tauto. Qed.

Lemma window_ok_add_message (timestamp message : str) (st : app) :
  window_ok st -> window_ok (add_message timestamp message st).
Proof.
  intros [_ [Hs Ht]]. split; [apply add_message_text_lines|]. split; assumption.
Qed.

Lemma window_ok_check_directory (env : fs) (st : app) :
  window_ok st -> window_ok (snd (check_directory env st)).
Proof.
  destruct (check_directory_frame env st) as [_ [_ [_ [_ [Hs [Hm Ht]]]]]].
  apply window_ok_frame; assumption.
Qed.

Lemma window_ok_send_message (env : fs) (timestamp : str) (st : app) :
  window_ok st -> window_ok (send_message env timestamp st).
Proof.
  intros Hw. unfold send_message.
  destruct (searching st) eqn:Es; [exact Hw|].
  destruct (py_strip (input_var st)) as [|c q] eqn:Eq; [exact Hw|].
  set (st1 := add_message timestamp (lit "You: " ++ c :: q) (set_input [] st)).
  assert (Hw1 : window_ok st1).
  { apply window_ok_add_message. revert Hw. apply window_ok_frame; reflexivity. }
  pose proof (window_ok_check_directory env st1 Hw1) as Hw2.
  destruct (check_directory env st1) as [ok st2] eqn:Ec. simpl in Hw2.
  destruct ok; cbn [negb].
  - destruct Hw2 as [Hm [_ _]]. split; [exact Hm|]. simpl.
    split; [split; [intros _; discriminate | reflexivity]|].
    intros query Hq. injection Hq as <-. discriminate.
  - apply window_ok_add_message. exact Hw2.
Qed.

Lemma window_ok_update_file_extensions (env : fs) (st : app) :
  window_ok st -> window_ok (update_file_extensions env st).
Proof.
  intros Hw. unfold update_file_extensions.
  assert (Hw1 : window_ok (set_file_extensions (selected_of (file_type_vars st)) st))
    by (revert Hw; apply window_ok_frame; reflexivity).
  destruct (file_extensions (set_file_extensions (selected_of (file_type_vars st)) st));
    [exact Hw1 | apply window_ok_check_directory; exact Hw1].
Qed.

Lemma window_ok_step (env : fs) (ev : event) (st : app) :
  window_ok st -> window_ok (step env ev st).
Proof.
  intros Hw. destruct ev as [ts | s | d | d | ext on | | ts]; simpl.
  - apply window_ok_send_message. exact Hw.
  - revert Hw. apply window_ok_frame; reflexivity.
  - revert Hw. apply window_ok_frame; reflexivity.
  - unfold browse_directory. destruct d as [|c d]; [exact Hw|].
    apply window_ok_check_directory. revert Hw. apply window_ok_frame; reflexivity.
  - unfold toggle_file_type. apply window_ok_update_file_extensions.
    revert Hw. apply window_ok_frame; reflexivity.
  - apply window_ok_check_directory. exact Hw.
  - unfold finish_search. destruct (search_thread st) as [query|]; [|exact Hw].
    unfold search_complete. pose proof (window_ok_add_message ts
      (fst (search_files (config_of st) (os_walk env (base_dir st)) query)) st Hw) as [Hm _].
    split; [exact Hm|]. simpl. split; [split; [discriminate | intros H; exfalso; apply H; reflexivity]|].
    discriminate.
Qed.

Lemma window_ok_run_events (env : fs) (evs : list event) (st : app) :
  window_ok st -> window_ok (run_events env evs st).
Proof.
  unfold run_events. revert st; induction evs as [|ev evs IH]; intros st Hw; simpl; [exact Hw|].
  apply IH. apply window_ok_step. exact Hw.
Qed.

(** Whatever the user does after start-up (typing, sending, editing or
    browsing the directory, ticking file types, validating) and whenever
    background searches complete, the window of radar_chatbot.py keeps
    three facts: the message pane holds at most 1000 lines, the
    [searching] flag is set exactly while a search thread is pending, and a
    pending search never has an empty query. *)
Theorem window_invariant (env : fs) (ts1 ts2 ts3 : str) (evs : list event) :
  let st := run_events env evs (init_app env ts1 ts2 ts3) in
  newline_count (messages_text st) <= 1000
  /\ (searching st = true <-> search_thread st <> None)
  /\ (forall query, search_thread st = Some query -> query <> []).
Proof.
  apply window_ok_run_events. unfold init_app.
  apply window_ok_check_directory. apply window_ok_add_message.
  apply window_ok_add_message. apply window_ok_add_message.
  split; [unfold newline_count; simpl; lia|]. simpl.
  split; [split; [discriminate | intros H; exfalso; apply H; reflexivity]|].
  discriminate.
Qed.
